(** * Ecliptic: planetary alignment finder

    A shallow embedding of the alignment-search engine
    ([ecliptic/basic_scan.py], [eclipse2.py], [visualize_alignments.py])
    together with the properties stated for it.

    Modelling conventions.
    - A Python [float] is a canonical rational [Qc]: arithmetic is exact, and
      two floats are equal exactly when they are the same number.  IEEE
      rounding, infinities and NaN are outside the model.
    - A Python exception is a value of [Py.exn]; code that can raise returns
      [Py.result].
    - [datetime.date] is its proleptic Gregorian ordinal
      ([date.toordinal()]), a [Z] between 1 and 3652059.
    - The JPL Horizons service is a function from a request to the parsed
      longitude or an exception; every request issued is logged, so that
      "no request was made" is a statement about the log. *)

From Stdlib Require Import ZArith QArith Qcanon Qround Lqa Lia String.
From stdpp Require Import base list sorting strings numbers.

Local Open Scope Z_scope.
Local Open Scope Qc_scope.

(** ** Part I: definitions *)

(** *** The fragment of Python the sources rely on *)
Module Py.

Inductive exn : Type :=
| ValueError (msg : string)
| KeyError (key : string)
| IndexError
| ZeroDivisionError
| OverflowError
| RequestError (msg : string).

Inductive result (A : Type) : Type :=
| Ok (a : A)
| Raise (e : exn).
Global Arguments Ok {A} a.
Global Arguments Raise {A} e.

Definition bind {A B : Type} (m : result A) (k : A → result B) : result B :=
  match m with
  | Ok a => k a
  | Raise e => Raise e
  end.

#[global] Instance exn_eq_dec : EqDecision exn.
Proof. solve_decision. Defined.
#[global] Instance result_eq_dec {A : Type} `{EqDecision A} : EqDecision (result A).
Proof. solve_decision. Defined.

#[global] Instance result_ret : MRet result := @Ok.
#[global] Instance result_bind : MBind result := λ A B k m, bind m k.

(** A [for] loop whose body updates the loop-carried state [s] and may raise. *)
Fixpoint for_each {A S : Type} (xs : list A) (body : S → A → result S)
    (s : S) : result S :=
  match xs with
  | [] => Ok s
  | x :: xs' => s' ← body s x; for_each xs' body s'
  end.

(** [range(lo, hi)] and [range(n)]. *)
Definition range2 (lo hi : Z) : list Z :=
  (λ i : nat, lo + Z.of_nat i)%Z <$> seq 0 (Z.to_nat (hi - lo)).
Definition range (n : Z) : list Z := range2 0 n.

(** [len(a)]. *)
Definition len {A : Type} (a : list A) : Z := Z.of_nat (length a).

(** [a[i]], negative indices counting from the end. *)
Definition getitem {A : Type} (a : list A) (i : Z) : result A :=
  let j := if bool_decide (i < 0)%Z then (i + len a)%Z else i in
  if bool_decide (0 ≤ j)%Z then
    match a !! Z.to_nat j with
    | Some x => Ok x
    | None => Raise IndexError
    end
  else Raise IndexError.

(** [math.floor] on a float. *)
Definition floor (x : Qc) : Z := Qfloor x.

(** [int(x)] on a float: truncation towards zero. *)
Definition int_of_float (x : Qc) : Z :=
  if bool_decide (0 ≤ x) then Qfloor x else Qceiling x.

(** [x % m] on floats for a positive modulus [m]: the result takes the sign
    of [m], that is [x - m * floor(x / m)]. *)
Definition float_mod (x m : Qc) : Qc := x - m * Qc_of_Z (floor (x / m)).

(** [x / y] on floats. *)
Definition float_div (x y : Qc) : result Qc :=
  if bool_decide (y = 0) then Raise ZeroDivisionError else Ok (x / y).

(** The two-argument builtin [max(a, b)]: [b] when [b > a], else [a]. *)
Definition max2 (a b : Qc) : Qc := if bool_decide (a < b) then b else a.

(** The builtin [max(iterable)]. *)
Definition max_ (l : list Qc) : result Qc :=
  match l with
  | [] => Raise (ValueError "max() arg is an empty sequence")
  | x :: xs => Ok (foldl max2 x xs)
  end.

(** The builtin [sorted] on floats: the ascending rearrangement. *)
Definition sorted (l : list Qc) : list Qc := merge_sort Qcle l.

(** [math.pi], the binary64 value nearest to the circle constant. *)
Definition pi : Qc := Q2Qc (884279719003555 # 281474976710656).


(** [repr] of a list of strings, as an f-string prints it. *)
Definition repr_str (s : string) : string := "'" +:+ s +:+ "'".
Fixpoint join (sep : string) (l : list string) : string :=
  match l with
  | [] => ""
  | [s] => s
  | s :: l' => s +:+ sep +:+ join sep l'
  end.
Definition repr_list (l : list string) : string :=
  "[" +:+ join ", " (repr_str <$> l) +:+ "]".

(** [datetime.date] as an ordinal; [d + timedelta(days=1)] raises
    [OverflowError] past [date.max]. *)
Definition date : Type := Z.
Definition MAXORDINAL : Z := 3652059.
Definition date_add_day (d : date) : result date :=
  if bool_decide (d + 1 ≤ MAXORDINAL)%Z then Ok (d + 1)%Z else Raise OverflowError.

End Py.
Import Py.

(** *** The ephemeris provider (JPL Horizons) and the I/O it causes *)
Module Horizons.

(** One HTTP request: the [COMMAND] body id and the day asked for. *)
Definition request : Type := string * date.

(** The service with the response parsing up to the longitude field: the
    parsed ecliptic longitude, or the exception the request or the parser
    raises. *)
Definition service : Type := string → date → result Qc.

(** A computation that talks to the service: the requests it issued, in
    order, and its outcome. *)
Definition io (A : Type) : Type := list request * result A.

Definition io_bind {A B : Type} (m : io A) (k : A → io B) : io B :=
  match m.2 with
  | Ok a => (m.1 ++ (k a).1, (k a).2)
  | Raise e => (m.1, Raise e)
  end.

#[global] Instance io_ret : MRet io := λ A a, ([], Ok a).
#[global] Instance io_mbind : MBind io := λ A B k m, io_bind m k.

(** Pure code inside an I/O computation issues no request. *)
Definition lift {A : Type} (r : result A) : io A := ([], r).

(** [session.get(HORIZONS_API, params=...)] followed by the parse. *)
Definition get (srv : service) (body_id : string) (day : date) : io Qc :=
  ([(body_id, day)], srv body_id day).

Fixpoint io_for_each {A S : Type} (xs : list A) (body : S → A → io S)
    (s : S) : io S :=
  match xs with
  | [] => mret s
  | x :: xs' => s' ← body s x; io_for_each xs' body s'
  end.

End Horizons.
Import Horizons.

(** *** [ecliptic/basic_scan.py] *)
Module BasicScan.

Definition PLANET_IDS : list (string * string) :=
  [("Mercury", "199"); ("Venus", "299"); ("Mars", "499"); ("Jupiter", "599");
   ("Saturn", "699"); ("Uranus", "799"); ("Neptune", "899")]%string.

(** [list(PLANET_IDS.keys())], [p in PLANET_IDS] and [PLANET_IDS[p]]. *)
Definition keys (d : list (string * string)) : list string := fst <$> d.
Definition contains (d : list (string * string)) (p : string) : bool :=
  bool_decide (p ∈ keys d).
Definition lookup_id (d : list (string * string)) (p : string) : result string :=
  match list_find (λ kv, kv.1 = p) d with
  | Some (_, kv) => Ok kv.2
  | None => Raise (KeyError p)
  end.

Record AlignmentHit : Type := mkAlignmentHit {
  start : date;
  end_ : date;
  planets : list string;
  max_span_deg : Qc;
}.

#[global] Instance AlignmentHit_eq_dec : EqDecision AlignmentHit.
Proof. solve_decision. Defined.

(** The loop [for i in range(len(a) - 1): gaps.append(a[i + 1] - a[i])]. *)
Definition gap_loop (a : list Qc) : result (list Qc) :=
  for_each (range (len a - 1))
    (λ gaps i, x ← getitem a (i + 1)%Z; y ← getitem a i; Ok (gaps ++ [x - y]))
    [].

Definition _circular_span_deg (angles_deg : list Qc) : result Qc :=
  if bool_decide (angles_deg = []) then Ok 0 else
  let a := sorted ((λ x, float_mod x (Qc_of_Z 360)) <$> angles_deg) in
  if bool_decide (len a = 1%Z) then Ok 0 else
  gaps ← gap_loop a;
  a0 ← getitem a 0%Z;
  al ← getitem a (-1)%Z;
  let gaps := gaps ++ [(a0 + Qc_of_Z 360) - al] in
  largest_gap ← max_ gaps;
  Ok (Qc_of_Z 360 - largest_gap).



(** [_parse_lon_from_result_text] ends with [return ecl_lon % 360.0]; the
    stop date [day + timedelta(days=1)] is computed before the request. *)
Definition fetch_geocentric_ecliptic_longitude (srv : service)
    (body_id : string) (day : date) : io Qc :=
  _ ← lift (date_add_day day);
  ecl_lon ← get srv body_id day;
  mret (float_mod ecl_lon (Qc_of_Z 360)).

(** The validation loop at the head of [list_planetary_alignments]. *)
Definition unknown_planet_message (p : string) : string :=
  "Unknown planet name: " +:+ p +:+ ". Available: " +:+ repr_list (keys PLANET_IDS).

Definition check_planets (planets : list string) : result () :=
  for_each planets
    (λ _ p, if contains PLANET_IDS p then Ok ()
            else Raise (ValueError (unknown_planet_message p)))
    ().

(** The inner loop [for p in planets: lons.append(fetch(PLANET_IDS[p], d))]. *)
Definition fetch_longitudes (srv : service) (planets : list string)
    (d : date) : io (list Qc) :=
  io_for_each planets
    (λ lons p,
       body_id ← lift (lookup_id PLANET_IDS p);
       lon ← fetch_geocentric_ecliptic_longitude srv body_id d;
       mret (lons ++ [lon]))
    [].

(** The span computed for day [d] inside the scanning loop. *)
Definition span_on_day (srv : service) (planets : list string)
    (d : date) : io Qc :=
  lons ← fetch_longitudes srv planets d;
  lift (_circular_span_deg lons).

(** [while d <= end_day: ...; d += timedelta(days=1)].  The loop runs once per
    day of [d .. end_day]; [n] is the number of iterations left, that is
    [end_day - d + 1] when [d <= end_day] and [0] when the condition fails. *)
Fixpoint scan_loop (srv : service) (planets : list string)
    (span_threshold_deg : Qc) (n : nat) (d : date)
    (hits : list (date * Qc)) : io (list (date * Qc)) :=
  match n with
  | O => mret hits
  | S n' =>
      span ← span_on_day srv planets d;
      let hits' :=
        if bool_decide (span ≤ span_threshold_deg) then hits ++ [(d, span)]
        else hits in
      d' ← lift (date_add_day d);
      scan_loop srv planets span_threshold_deg n' d' hits'
  end.

Definition scan (srv : service) (start_day end_day : date)
    (planets : list string) (span_threshold_deg : Qc) : io (list (date * Qc)) :=
  scan_loop srv planets span_threshold_deg
    (Z.to_nat (end_day - start_day + 1)) start_day [].

(** The loop [for (d, span) in hits[1:]] that merges consecutive days. *)
Fixpoint merge_loop (planets : list string) (hits : list (date * Qc))
    (cur_start cur_end : date) (cur_max_span : Qc)
    (intervals : list AlignmentHit) : result (list AlignmentHit) :=
  match hits with
  | [] => Ok (intervals ++ [mkAlignmentHit cur_start cur_end planets cur_max_span])
  | (d, span) :: hits' =>
      next ← date_add_day cur_end;
      if bool_decide (d = next) then
        merge_loop planets hits' cur_start d (max2 cur_max_span span) intervals
      else
        merge_loop planets hits' d d span
          (intervals ++ [mkAlignmentHit cur_start cur_end planets cur_max_span])
  end.

Definition merge_hits (planets : list string)
    (hits : list (date * Qc)) : result (list AlignmentHit) :=
  match hits with
  | [] => Ok []
  | (d0, span0) :: rest => merge_loop planets rest d0 d0 span0 []
  end.

Definition list_planetary_alignments (srv : service) (start_day end_day : date)
    (planets : list string) (span_threshold_deg : Qc) : io (list AlignmentHit) :=
  _ ← lift (check_planets planets);
  hits ← scan srv start_day end_day planets span_threshold_deg;
  lift (merge_hits planets hits).

End BasicScan.

(** *** [visualize_alignments.py] *)
Module Visualize.
Import BasicScan.

Definition check_planets (planets : list string) : result () :=
  for_each planets
    (λ _ p, if contains PLANET_IDS p then Ok ()
            else Raise (ValueError ("Unknown planet name: " +:+ p)))
    ().

Fixpoint spans_loop (srv : service) (planets : list string) (n : nat)
    (d : date) (days : list date) (spans : list Qc) : io (list date * list Qc) :=
  match n with
  | O => mret (days, spans)
  | S n' =>
      span ← span_on_day srv planets d;
      d' ← lift (date_add_day d);
      spans_loop srv planets n' d' (days ++ [d]) (spans ++ [span])
  end.

Definition compute_spans (srv : service) (start_day end_day : date)
    (planets : list string) : io (list date * list Qc) :=
  _ ← lift (check_planets planets);
  spans_loop srv planets (Z.to_nat (end_day - start_day + 1)) start_day [] [].

End Visualize.

(** *** [eclipse2.py] *)
Module Eclipse2.


(** The fields of [datetime.datetime] that [jd_from_datetime] reads. *)
Record datetime : Type := mkDatetime {
  year : Z;
  month : Z;
  day : Z;
  hour : Z;
  minute : Z;
}.

Definition jd_from_datetime (dt : datetime) : Qc :=
  let y := year dt in
  let m := month dt in
  let d := Qc_of_Z (day dt)
           + (Qc_of_Z (hour dt) + Qc_of_Z (minute dt) / Qc_of_Z 60) / Qc_of_Z 24 in
  let ym := if bool_decide (m ≤ 2)%Z then ((y - 1)%Z, (m + 12)%Z) else (y, m) in
  let y := ym.1 in
  let m := ym.2 in
  let A := (y `div` 100)%Z in
  let B := (2 - A + A `div` 4)%Z in
  Qc_of_Z (int_of_float (Q2Qc (36525 # 100) * Qc_of_Z (y + 4716)))
  + Qc_of_Z (int_of_float (Q2Qc (306001 # 10000) * Qc_of_Z (m + 1)))
  + d + Qc_of_Z B - Q2Qc (15245 # 10).

Definition circular_span_deg (angles : list Qc) : result Qc :=
  let a := sorted ((λ x, float_mod x (Qc_of_Z 360)) <$> angles) in
  gaps ← for_each (range (len a - 1))
            (λ gaps i, x ← getitem a (i + 1)%Z; y ← getitem a i; Ok (gaps ++ [x - y]))
            [];
  a0 ← getitem a 0%Z;
  al ← getitem a (-1)%Z;
  let gaps := gaps ++ [a0 + Qc_of_Z 360 - al] in
  largest ← max_ gaps;
  Ok (Qc_of_Z 360 - largest).


(** The candidate loop of [main], as a function of the values it reads:
    [t0 = elems[ref].epoch_jd], [lam[ref]], [lam[seed]], [n[ref]], [n[seed]]
    and the two window bounds [datetime(start.year, start.month, start.day)],
    [datetime(end.year, end.month, end.day)]. *)
Definition candidates (t0 lam_ref lam_seed n_ref n_seed : Qc)
    (start_dt end_dt : datetime) : result (list Qc) :=
  for_each (range2 (-200) 200)
    (λ cand k,
       quo ← float_div (lam_ref - lam_seed + Qc_of_Z 2 * pi * Qc_of_Z k)
                       (n_seed - n_ref);
       let t := t0 + quo in
       if bool_decide (jd_from_datetime start_dt ≤ t)
          && bool_decide (t ≤ jd_from_datetime end_dt)
       then Ok (cand ++ [t]) else Ok cand)
    [].

End Eclipse2.

(** *** Vocabulary of the statements *)

(** Normalisation of an angle into one turn. *)
Definition norm (x : Qc) : Qc := float_mod x (Qc_of_Z 360).

(** Differences of neighbours in a list, and the same closed up by the
    wrap-around gap from the last element back to the first. *)
Fixpoint diffs (a : list Qc) : list Qc :=
  match a with
  | x :: (y :: _) as t => (y - x) :: diffs t
  | _ => []
  end.

Definition cyclic_gaps (a : list Qc) : list Qc :=
  diffs a ++ [hd 0 a + Qc_of_Z 360 - List.last a 0].









(** The range of [datetime.datetime]: [MINYEAR = 1], [MAXYEAR = 9999]. *)
Definition valid_datetime (dt : Eclipse2.datetime) : Prop :=
  (1 ≤ Eclipse2.year dt ≤ 9999 ∧ 1 ≤ Eclipse2.month dt ≤ 12
   ∧ 1 ≤ Eclipse2.day dt ≤ 31 ∧ 0 ≤ Eclipse2.hour dt ≤ 23
   ∧ 0 ≤ Eclipse2.minute dt ≤ 59)%Z.

(** The standard Julian Day algorithm in the words of the specification,
    with [floor] throughout. *)
Definition julian_day_standard (year month day hour minute : Z) : Qc :=
  let y := if bool_decide (month ≤ 2)%Z then (year - 1)%Z else year in
  let m := if bool_decide (month ≤ 2)%Z then (month + 12)%Z else month in
  let A := floor (Qc_of_Z y / Qc_of_Z 100) in
  let B := (2 - A + floor (Qc_of_Z A / Qc_of_Z 4))%Z in
  let day_fraction :=
    Qc_of_Z day + (Qc_of_Z hour + Qc_of_Z minute / Qc_of_Z 60) / Qc_of_Z 24 in
  Qc_of_Z (floor (Q2Qc (36525 # 100) * Qc_of_Z (y + 4716)))
  + Qc_of_Z (floor (Q2Qc (306001 # 10000) * Qc_of_Z (m + 1)))
  + day_fraction + Qc_of_Z B - Q2Qc (15245 # 10).

(** The outcome of the span computation for day [d], without its log. *)
Definition day_span (srv : service) (planets : list string) (d : date) : result Qc :=
  (BasicScan.span_on_day srv planets d).2.

(** The merging loop without its accumulator and without the overflow check
    on [cur_end + timedelta(days=1)]: the intervals still to be emitted. *)
Fixpoint runs (planets : list string) (hits : list (date * Qc))
    (cur_start cur_end : date) (cur_max_span : Qc) : list BasicScan.AlignmentHit :=
  match hits with
  | [] => [BasicScan.mkAlignmentHit cur_start cur_end planets cur_max_span]
  | (d, span) :: hits' =>
      if bool_decide (d = cur_end + 1)%Z then
        runs planets hits' cur_start d (max2 cur_max_span span)
      else
        BasicScan.mkAlignmentHit cur_start cur_end planets cur_max_span
        :: runs planets hits' d d span
  end.

(** An interval that is a run of hit days, with respect to a hit relation. *)
Definition GoodRun (Hit : date → Qc → Prop) (s e : date) (m : Qc) : Prop :=
  (s ≤ e)%Z
  ∧ (∀ d, (s ≤ d ≤ e)%Z → ∃ sp, Hit d sp ∧ sp ≤ m)
  ∧ (∃ d, (s ≤ d ≤ e)%Z ∧ Hit d m).

(** Two intervals with at least one whole day between them. *)
Definition separated (a b : BasicScan.AlignmentHit) : Prop :=
  (BasicScan.end_ a + 2 ≤ BasicScan.start b)%Z.

(** Hits in strictly increasing date order. *)
Definition earlier (a b : date * Qc) : Prop := (a.1 < b.1)%Z.

(** A day is a hit of the scan of [s .. e] when it lies in the window and its
    span was computed and is within the threshold. *)
Definition Hit (srv : service) (planets : list string) (threshold : Qc)
    (s e : date) (d : date) (sp : Qc) : Prop :=
  (s ≤ d ≤ e)%Z ∧ day_span srv planets d = Ok sp ∧ sp ≤ threshold.

(** A provider for examples: Venus stays at 100 degrees, Mars is [d] degrees
    ahead of it on day [d], except on day 3 when it is 40 degrees ahead. *)
Definition example_service : service :=
  λ body_id d,
    if bool_decide (body_id = "499"%string) then
      Ok (if bool_decide (d = 3)%Z then Qc_of_Z 140 else Qc_of_Z (100 + d))
    else Ok (Qc_of_Z 100).

(** The body of the gap loop shared by both span routines. *)
Definition gap_body (a : list Qc) (gaps : list Qc) (i : Z) : result (list Qc) :=
  x ← getitem a (i + 1)%Z; y ← getitem a i; Ok (gaps ++ [x - y]).

(** The span as a total function of the angle list: what both span routines
    return whenever they return. *)
Definition largest (l : list Qc) : Qc :=
  match l with
  | [] => 0
  | x :: xs => foldl max2 x xs
  end.

Definition circular_span (xs : list Qc) : Qc :=
  match xs with
  | [] | [_] => 0
  | _ => Qc_of_Z 360 - largest (cyclic_gaps (sorted (norm <$> xs)))
  end.

(** *** Vocabulary of the further properties *)


(** The [n] consecutive days from [d] on, and the days of a scan window. *)
Definition days_from (d : date) (n : nat) : list date :=
  (λ i : nat, (d + Z.of_nat i)%Z) <$> seq 0 n.
Definition window (start_day end_day : date) : list date :=
  days_from start_day (Z.to_nat (end_day - start_day + 1)).

(** The Horizons id of a planet name, and the requests one day of scanning
    issues: one per planet, in the caller's order. *)
Definition body_id (p : string) : string :=
  match BasicScan.lookup_id BasicScan.PLANET_IDS p with
  | Ok b => b
  | Raise _ => ""
  end.
Definition day_requests (planets : list string) (d : date) : list request :=
  (λ p, (body_id p, d)) <$> planets.

(** A day that lies inside an interval. *)
Definition inside (d : date) (iv : BasicScan.AlignmentHit) : Prop :=
  (BasicScan.start iv ≤ d ≤ BasicScan.end_ iv)%Z.

(** A provider for examples that answers like [example_service] except on
    day 3, when every request fails. *)
Definition failing_service : service :=
  λ body_id d,
    if bool_decide (d = 3)%Z then Raise (RequestError "503 Server Error")
    else example_service body_id d.

(** The proleptic Gregorian calendar as [datetime] counts it: leap years,
    month lengths, and the ordinal of a date with 0001-01-01 as day 1
    ([date.toordinal()]). *)
Definition is_leap (y : Z) : bool :=
  bool_decide (y `mod` 4 = 0)%Z
  && (negb (bool_decide (y `mod` 100 = 0)%Z) || bool_decide (y `mod` 400 = 0)%Z).

Definition days_in_month (y m : Z) : Z :=
  (if bool_decide (m = 2) then (if is_leap y then 29 else 28)
   else if bool_decide (m = 4 ∨ m = 6 ∨ m = 9 ∨ m = 11) then 30
   else 31)%Z.

Definition days_before_month (y m : Z) : Z :=
  (match m with
   | 1 => 0 | 2 => 31 | 3 => 59 | 4 => 90 | 5 => 120 | 6 => 151
   | 7 => 181 | 8 => 212 | 9 => 243 | 10 => 273 | 11 => 304 | _ => 334
   end + if bool_decide (2 < m) && is_leap y then 1 else 0)%Z.

Definition days_before_year (y : Z) : Z :=
  ((y - 1) * 365 + (y - 1) `div` 4 - (y - 1) `div` 100 + (y - 1) `div` 400)%Z.

Definition toordinal (y m d : Z) : Z :=
  (days_before_year y + days_before_month y m + d)%Z.

(** A [datetime] that the constructor accepts: the day exists in its month. *)
Definition calendar_datetime (dt : Eclipse2.datetime) : Prop :=
  valid_datetime dt
  ∧ (Eclipse2.day dt ≤ days_in_month (Eclipse2.year dt) (Eclipse2.month dt))%Z.

(** Wall-clock order of two [datetime] values. *)
Definition earlier_datetime (a b : Eclipse2.datetime) : Prop :=
  (Eclipse2.year a < Eclipse2.year b
   ∨ Eclipse2.year a = Eclipse2.year b
     ∧ (Eclipse2.month a < Eclipse2.month b
        ∨ Eclipse2.month a = Eclipse2.month b
          ∧ (Eclipse2.day a < Eclipse2.day b
             ∨ Eclipse2.day a = Eclipse2.day b
               ∧ (Eclipse2.hour a < Eclipse2.hour b
                  ∨ Eclipse2.hour a = Eclipse2.hour b
                    ∧ Eclipse2.minute a < Eclipse2.minute b))))%Z.

(** The time of day as a fraction of a day. *)
Definition day_fraction (h mi : Z) : Qc :=
  (Qc_of_Z h + Qc_of_Z mi / Qc_of_Z 60) / Qc_of_Z 24.





(** ** Part II: properties *)

(** *** Linear arithmetic on canonical rationals, through [Q] *)
Section QcArith.

Lemma Qc_eq_Qeq (x y : Qc) : x = y ↔ (this x == this y)%Q.
Proof. split; [intros ->; reflexivity | apply Qc_is_canon]. Qed.

Lemma this_add (x y : Qc) : (this (x + y) == this x + this y)%Q.
Proof. apply Qred_correct. Qed.

Lemma this_opp (x : Qc) : (this (- x) == - this x)%Q.
Proof. apply Qred_correct. Qed.

Lemma this_sub (x y : Qc) : (this (x - y) == this x - this y)%Q.
Proof. unfold Qcminus. rewrite this_add, this_opp. reflexivity. Qed.

Lemma this_mul (x y : Qc) : (this (x * y) == this x * this y)%Q.
Proof. apply Qred_correct. Qed.

Lemma this_Q2Qc (p : Q) : (this (Q2Qc p) == p)%Q.
Proof. apply Qred_correct. Qed.

Lemma this_of_Z (n : Z) : this (Qc_of_Z n) = inject_Z n.
Proof. reflexivity. Qed.

End QcArith.

Ltac qc_prep :=
  repeat match goal with
  | H : @eq Qc _ _ |- _ => apply Qc_eq_Qeq in H
  | H : ¬ @eq Qc _ _ |- _ => rewrite Qc_eq_Qeq in H
  | |- @eq Qc _ _ => apply Qc_eq_Qeq
  | |- ¬ @eq Qc _ _ => rewrite Qc_eq_Qeq
  end;
  unfold Qcle, Qclt in *;
  repeat match goal with
  | H : context [this (_ + _)] |- _ => rewrite this_add in H
  | H : context [this (_ - _)] |- _ => rewrite this_sub in H
  | H : context [this (_ * _)] |- _ => rewrite this_mul in H
  | H : context [this (- _)] |- _ => rewrite this_opp in H
  | H : context [this (Q2Qc _)] |- _ => rewrite this_Q2Qc in H
  | H : context [this (Qc_of_Z _)] |- _ => rewrite this_of_Z in H
  | |- context [this (_ + _)] => rewrite this_add
  | |- context [this (_ - _)] => rewrite this_sub
  | |- context [this (_ * _)] => rewrite this_mul
  | |- context [this (- _)] => rewrite this_opp
  | |- context [this (Q2Qc _)] => rewrite this_Q2Qc
  | |- context [this (Qc_of_Z _)] => rewrite this_of_Z
  end.

Ltac qc_lra := qc_prep; unfold inject_Z in *; lra.

(** Closed goals decided by evaluation. *)
Ltac by_eval := apply (bool_decide_eq_true_1 _); vm_compute; reflexivity.

(** *** Floor and remainder *)
Section Remainder.









End Remainder.

(** *** The builtins [sorted], [max] and indexing *)
Section Builtins.


Lemma sorted_perm (l : list Qc) : sorted l ≡ₚ l.
Proof. apply merge_sort_Permutation. Qed.



Lemma sorted_length (l : list Qc) : length (sorted l) = length l.
Proof. by rewrite sorted_perm. Qed.

Lemma max2_spec (a b : Qc) :
  a ≤ max2 a b ∧ b ≤ max2 a b ∧ (max2 a b = a ∨ max2 a b = b).
Proof.
  unfold max2. case_bool_decide as H.
  - split_and!; [by apply Qclt_le_weak | apply Qcle_refl | by right].
  - apply Qcnot_lt_le in H. split_and!; [apply Qcle_refl | done | by left].
Qed.






Lemma max_nonempty (l : list Qc) : l ≠ [] → max_ l = Ok (largest l).
Proof. by destruct l. Qed.

Lemma getitem_nat {A : Type} (a : list A) (i : nat) (x : A) :
  a !! i = Some x → getitem a (Z.of_nat i) = Ok x.
Proof.
  intros H. unfold getitem. cbv zeta.
  rewrite (bool_decide_eq_false_2 (Z.of_nat i < 0)%Z) by lia.
  rewrite bool_decide_eq_true_2 by lia.
  by rewrite Nat2Z.id, H.
Qed.

Lemma getitem_first (a : list Qc) : a ≠ [] → getitem a 0%Z = Ok (hd 0 a).
Proof. destruct a; [done | intros _; by apply (getitem_nat _ 0%nat)]. Qed.

Lemma last_lookup_default (a : list Qc) :
  a ≠ [] → a !! (length a - 1)%nat = Some (List.last a 0).
Proof.
  induction a as [|x [|y t] IH]; [done | done |].
  intros _. change (List.last (x :: y :: t) 0) with (List.last (y :: t) 0).
  rewrite <-IH by done. simpl. by rewrite Nat.sub_0_r.
Qed.

Lemma getitem_last (a : list Qc) :
  a ≠ [] → getitem a (-1)%Z = Ok (List.last a 0).
Proof.
  intros Hne. unfold getitem. cbv zeta.
  rewrite (bool_decide_eq_true_2 (-1 < 0)%Z) by lia.
  assert (0 < length a)%nat by (destruct a; [done | simpl; lia]).
  rewrite bool_decide_eq_true_2 by (unfold len; lia).
  replace (Z.to_nat (-1 + len a)) with (length a - 1)%nat by (unfold len; lia).
  by rewrite last_lookup_default.
Qed.

Lemma getitem_empty {A : Type} (i : Z) : getitem (@nil A) i = Raise IndexError.
Proof. unfold getitem. by repeat case_bool_decide. Qed.

End Builtins.

(** *** The gap loop computes the neighbour differences *)
Section GapLoop.

Lemma gap_loop_from (a : list Qc) (m lo : nat) (acc : list Qc) :
  (lo + m + 1 = length a)%nat →
  for_each ((λ i : nat, (0 + Z.of_nat i)%Z) <$> seq lo m) (gap_body a) acc
  = Ok (acc ++ diffs (drop lo a)).
Proof.
  revert lo acc. induction m as [|m IH]; intros lo acc Hlen.
  - simpl. pose proof (length_drop a lo) as Hd.
    destruct (drop lo a) as [|x [|y t]]; simpl in *; try lia.
    by rewrite app_nil_r.
  - destruct (lookup_lt_is_Some_2 a lo) as [x Hx]; [lia|].
    destruct (lookup_lt_is_Some_2 a (S lo)) as [y Hy]; [lia|].
    rewrite (drop_S _ _ _ Hx), (drop_S _ _ _ Hy).
    assert (gap_body a acc (0 + Z.of_nat lo) = Ok (acc ++ [y - x])) as Hbody.
    { unfold gap_body.
      replace (0 + Z.of_nat lo + 1)%Z with (Z.of_nat (S lo)) by lia.
      rewrite (getitem_nat _ _ _ Hy). cbn [mbind result_bind bind].
      replace (0 + Z.of_nat lo)%Z with (Z.of_nat lo) by lia.
      by rewrite (getitem_nat _ _ _ Hx). }
    cbn [seq fmap list_fmap for_each]. rewrite Hbody.
    cbn [mbind result_bind bind]. fold (gap_body a).
    rewrite IH by lia. rewrite (drop_S _ _ _ Hy).
    cbn [diffs]. by rewrite <-app_assoc.
Qed.

Lemma for_range_gaps (a : list Qc) :
  for_each (range (len a - 1)) (gap_body a) [] = Ok (diffs a).
Proof.
  unfold range, range2, len. destruct a as [|x t]; [done|].
  replace (Z.to_nat (Z.of_nat (length (x :: t)) - 1 - 0)) with (length t)
    by (simpl; lia).
  rewrite gap_loop_from by (simpl; lia). done.
Qed.

End GapLoop.

(** *** Both span routines compute [circular_span] *)
Section SpanRefinement.

Lemma normalised_nonempty (xs : list Qc) :
  xs ≠ [] → sorted (norm <$> xs) ≠ [].
Proof.
  intros Hne E. apply Hne.
  apply (f_equal length) in E. rewrite sorted_length, length_fmap in E.
  by apply nil_length_inv.
Qed.

Lemma cyclic_gaps_nonempty (a : list Qc) : cyclic_gaps a ≠ [].
Proof. unfold cyclic_gaps. by destruct (diffs a). Qed.

Lemma span_tail (a : list Qc) :
  a ≠ [] →
  (gaps ← for_each (range (len a - 1)) (gap_body a) [];
   a0 ← getitem a 0%Z;
   al ← getitem a (-1)%Z;
   largest_gap ← max_ (gaps ++ [a0 + Qc_of_Z 360 - al]);
   Ok (Qc_of_Z 360 - largest_gap))
  = Ok (Qc_of_Z 360 - largest (cyclic_gaps a)).
Proof.
  intros Hne. rewrite for_range_gaps. cbn [mbind result_bind bind].
  rewrite getitem_first, getitem_last by done. cbn [mbind result_bind bind].
  fold (cyclic_gaps a). by rewrite max_nonempty by apply cyclic_gaps_nonempty.
Qed.

Lemma basic_span_eq (xs : list Qc) :
  BasicScan._circular_span_deg xs = Ok (circular_span xs).
Proof.
  unfold BasicScan._circular_span_deg.
  destruct xs as [|x [|y t]]; [done | done |].
  rewrite bool_decide_eq_false_2 by done. cbv zeta.
  rewrite bool_decide_eq_false_2
    by (unfold len; rewrite sorted_length, length_fmap; simpl; lia).
  unfold BasicScan.gap_loop. fold (gap_body (sorted (norm <$> x :: y :: t))).
  apply (span_tail (sorted (norm <$> x :: y :: t))).
  by apply normalised_nonempty.
Qed.



Lemma eclipse2_span_empty : Eclipse2.circular_span_deg [] = Raise IndexError.
Proof. reflexivity. Qed.

End SpanRefinement.

(** *** Gaps of an ascending list of normalised angles *)
Section Gaps.

















End Gaps.

(** *** Rotation and reordering *)
Section Rotation.
















End Rotation.

(** *** Evenly spaced angles *)
Section EvenlySpaced.















End EvenlySpaced.

(** *** The circular span: stated properties *)
Section CircularSpan.











End CircularSpan.





(** *** Calendar conversion *)
Section JulianDay.
Import Eclipse2.

Lemma floor_div (a b : Z) :
  (0 < b)%Z → floor (Qc_of_Z a / Qc_of_Z b) = (a `div` b)%Z.
Proof.
  intros Hb. unfold floor. rewrite Zdiv_Qdiv.
  apply Qfloor_comp. unfold Qcdiv, Qcinv.
  rewrite this_mul, this_Q2Qc, !this_of_Z. reflexivity.
Qed.

Lemma int_of_float_nonneg (x : Qc) : 0 ≤ x → int_of_float x = floor x.
Proof. intros H. unfold int_of_float. by rewrite bool_decide_eq_true_2. Qed.

Lemma int_of_scaled (k : Qc) (n : Z) :
  0 ≤ k → (0 ≤ n)%Z → int_of_float (k * Qc_of_Z n) = floor (k * Qc_of_Z n).
Proof.
  intros Hk Hn. apply int_of_float_nonneg, Qcmult_nonneg_nonneg; [done|].
  rewrite <-Z2Qc_inj_0. by apply (proj1 (Z2Qc_inj_le _ _)).
Qed.

(** C4: on every [datetime] the conversion is the standard Julian Day
    algorithm, and noon of 2000-01-01 is day 2451545.0. *)
Theorem jd_from_datetime_standard (dt : datetime) :
  valid_datetime dt →
  jd_from_datetime dt
    = julian_day_standard (year dt) (month dt) (day dt) (hour dt) (minute dt)
  ∧ jd_from_datetime (mkDatetime 2000 1 1 12 0) = Qc_of_Z 2451545.
Proof.
  intros (Hy & Hm & _). split; [|by_eval].
  unfold jd_from_datetime, julian_day_standard. cbv zeta.
  rewrite !floor_div by lia.
  case_bool_decide; cbn [fst snd];
    rewrite !int_of_scaled by (by_eval || lia); reflexivity.
Qed.

Lemma jd_from_datetime_standard_witness :
  valid_datetime (mkDatetime 2026 1 1 0 0)
  ∧ jd_from_datetime (mkDatetime 2026 1 1 0 0)
    = julian_day_standard 2026 1 1 0 0.
Proof.
  assert (valid_datetime (mkDatetime 2026 1 1 0 0)) as H
    by (unfold valid_datetime; simpl; lia).
  split; [exact H|].
  exact (proj1 (jd_from_datetime_standard (mkDatetime 2026 1 1 0 0) H)).
Defined.

End JulianDay.

(** *** Mean longitude and candidate epochs *)
Section Analytic.
Import Eclipse2.



Lemma range2_cons (lo hi : Z) :
  (lo < hi)%Z → range2 lo hi = lo :: range2 (lo + 1) hi.
Proof.
  intros H. unfold range2.
  replace (Z.to_nat (hi - lo)) with (S (Z.to_nat (hi - (lo + 1)))) by lia.
  cbn [seq fmap list_fmap]. f_equal; [lia|].
  rewrite <-fmap_S_seq, <-list_fmap_compose.
  apply list_fmap_ext. intros _ i _. simpl. lia.
Qed.

Lemma float_div_zero (x n : Qc) : float_div x (n - n) = Raise ZeroDivisionError.
Proof.
  unfold float_div. rewrite bool_decide_eq_true_2; [done|].
  apply Qcplus_opp_r.
Qed.

(** C6: with equal mean motions the candidate loop raises
    [ZeroDivisionError] in its first iteration; no list is returned. *)
Theorem candidates_equal_mean_motion
    (t0 lam_ref lam_seed n : Qc) (start_dt end_dt : datetime) :
  candidates t0 lam_ref lam_seed n n start_dt end_dt = Raise ZeroDivisionError
  ∧ ∀ cand, candidates t0 lam_ref lam_seed n n start_dt end_dt ≠ Ok cand.
Proof.
  assert (candidates t0 lam_ref lam_seed n n start_dt end_dt
          = Raise ZeroDivisionError) as E.
  { unfold candidates. rewrite range2_cons by lia.
    cbn [for_each]. by rewrite float_div_zero. }
  split; [done|]. intros cand. by rewrite E.
Qed.

End Analytic.

(** *** Exceptions and the request log *)
Section Monads.

Lemma bind_Ok_inv {A B : Type} (m : result A) (k : A → result B) (b : B) :
  m ≫= k = Ok b → ∃ a, m = Ok a ∧ k a = Ok b.
Proof. destruct m as [a|e]; [by exists a | done]. Qed.

Lemma io_bind_Ok_inv {A B : Type} (m : io A) (k : A → io B)
    (tr : list request) (b : B) :
  m ≫= k = (tr, Ok b) →
  ∃ a tr1 tr2, m = (tr1, Ok a) ∧ k a = (tr2, Ok b) ∧ tr = tr1 ++ tr2.
Proof.
  unfold mbind, io_mbind, io_bind. destruct m as [tr1 [a|e]]; simpl; [|done].
  destruct (k a) as [tr2 r] eqn:E. simpl. intros [= <- ->].
  by exists a, tr1, tr2.
Qed.

Lemma lift_Ok_inv {A : Type} (r : result A) (tr : list request) (a : A) :
  lift r = (tr, Ok a) → r = Ok a ∧ tr = [].
Proof. by intros [= <- ->]. Qed.

Lemma date_add_day_inv (d d' : date) :
  date_add_day d = Ok d' → d' = (d + 1)%Z.
Proof. unfold date_add_day. case_bool_decide; by intros [= <-]. Qed.

End Monads.

(** *** Validation of the planet names *)
Section Validation.
Import BasicScan.

Lemma contains_true (p : string) :
  contains PLANET_IDS p = true ↔ p ∈ keys PLANET_IDS.
Proof. unfold contains. apply bool_decide_eq_true. Qed.

Lemma check_planets_unknown (pre post : list string) (p : string) :
  (∀ x, x ∈ pre → x ∈ keys PLANET_IDS) → p ∉ keys PLANET_IDS →
  check_planets (pre ++ p :: post)
    = Raise (ValueError (unknown_planet_message p))
  ∧ Visualize.check_planets (pre ++ p :: post)
    = Raise (ValueError ("Unknown planet name: " +:+ p)).
Proof.
  intros Hpre Hp. unfold check_planets, Visualize.check_planets.
  induction pre as [|x pre IH]; cbn [app for_each].
  - assert (contains PLANET_IDS p = false) as ->; [|done].
    apply not_true_is_false. by rewrite contains_true.
  - assert (contains PLANET_IDS x = true) as ->
      by (apply contains_true, Hpre; left).
    apply IH. intros y Hy. apply Hpre. by right.
Qed.

(** An unknown name stops both entry points before any request is sent; the
    scan's error lists the valid names, the plotting helper's does not. *)
Lemma unknown_planet_fails_fast (srv : service) (start_day end_day : date)
    (threshold : Qc) (pre post : list string) (p : string) :
  (∀ x, x ∈ pre → x ∈ keys PLANET_IDS) → p ∉ keys PLANET_IDS →
  list_planetary_alignments srv start_day end_day (pre ++ p :: post) threshold
    = ([], Raise (ValueError
        ("Unknown planet name: " +:+ p +:+
         ". Available: ['Mercury', 'Venus', 'Mars', 'Jupiter', 'Saturn', 'Uranus', 'Neptune']")))
  ∧ Visualize.compute_spans srv start_day end_day (pre ++ p :: post)
    = ([], Raise (ValueError ("Unknown planet name: " +:+ p))).
Proof.
  intros Hpre Hp.
  destruct (check_planets_unknown pre post p Hpre Hp) as [E1 E2].
  unfold list_planetary_alignments, Visualize.compute_spans.
  rewrite E1, E2. done.
Qed.

(** Every list with an unknown name splits at its first unknown name. *)
Lemma first_unknown (planets : list string) :
  (∃ p, p ∈ planets ∧ p ∉ keys PLANET_IDS) →
  ∃ pre p post, planets = pre ++ p :: post
    ∧ (∀ x, x ∈ pre → x ∈ keys PLANET_IDS) ∧ p ∉ keys PLANET_IDS.
Proof.
  induction planets as [|x l IH]; intros (p & Hin & Hp).
  - by apply elem_of_nil in Hin.
  - destruct (decide (x ∈ keys PLANET_IDS)) as [Hx|Hx].
    + destruct IH as (pre & p' & post & -> & Hpre & Hp').
      { apply elem_of_cons in Hin as [->|Hin]; [done | eauto]. }
      exists (x :: pre), p', post. split_and!; [done | | done].
      intros y [->|Hy]%elem_of_cons; auto.
    + exists [], x, l. split_and!; [done | | done].
      intros y Hy. by apply elem_of_nil in Hy.
Qed.

Lemma unknown_planet_never_scanned (srv : service) (start_day end_day : date)
    (threshold : Qc) (planets : list string) :
  (∃ p, p ∈ planets ∧ p ∉ keys PLANET_IDS) →
  ∃ p, p ∈ planets ∧ (p ∉ keys PLANET_IDS)
    ∧ list_planetary_alignments srv start_day end_day planets threshold
      = ([], Raise (ValueError (unknown_planet_message p)))
    ∧ Visualize.compute_spans srv start_day end_day planets
      = ([], Raise (ValueError ("Unknown planet name: " +:+ p))).
Proof.
  intros H. apply first_unknown in H as (pre & p & post & -> & Hpre & Hp).
  exists p. split; [apply elem_of_app; right; left|]. split; [done|].
  by apply unknown_planet_fails_fast.
Qed.

(** C5 at the failing input: for a list naming Pluto, the scan raises a
    [ValueError] that lists the seven valid names and the plotting helper
    [compute_spans] raises one that names Pluto only; neither sends a
    request. *)
Theorem unknown_planet_messages (srv : service) (start_day end_day : date)
    (threshold : Qc) :
  BasicScan.list_planetary_alignments srv start_day end_day
      ["Mars"; "Pluto"; "Venus"]%string threshold
    = ([], Raise (ValueError
        "Unknown planet name: Pluto. Available: ['Mercury', 'Venus', 'Mars', 'Jupiter', 'Saturn', 'Uranus', 'Neptune']"))
  ∧ Visualize.compute_spans srv start_day end_day ["Mars"; "Pluto"; "Venus"]%string
    = ([], Raise (ValueError "Unknown planet name: Pluto")).
Proof.
  apply (unknown_planet_fails_fast srv start_day end_day threshold
           ["Mars"%string] ["Venus"%string] "Pluto"%string).
  - intros x ->%list_elem_of_singleton. by_eval.
  - by_eval.
Qed.

End Validation.

(** *** The daily scan *)
Section Scan.
Import BasicScan.
Context (srv : service) (planets : list string) (threshold : Qc).

Lemma earlier_snoc (l : list (date * Qc)) (x : date * Qc) :
  StronglySorted earlier l → (∀ y, y ∈ l → earlier y x) →
  StronglySorted earlier (l ++ [x]).
Proof.
  intros Hs Hall. apply StronglySorted_app_2; [|done|repeat constructor].
  intros y z Hy ->%list_elem_of_singleton. auto.
Qed.

(** What the scanning loop appends: exactly the days of [d .. d + n - 1]
    whose span is within the threshold, in date order; and every day of that
    range has been given a span. *)
Lemma scan_loop_spec (n : nat) (d : date) (hits : list (date * Qc))
    (tr : list request) (out : list (date * Qc)) :
  scan_loop srv planets threshold n d hits = (tr, Ok out) →
  ∃ new, out = hits ++ new
    ∧ (∀ d' sp, (d', sp) ∈ new ↔
         (d ≤ d' < d + Z.of_nat n)%Z ∧ day_span srv planets d' = Ok sp
         ∧ sp ≤ threshold)
    ∧ StronglySorted earlier new
    ∧ (∀ d', (d ≤ d' < d + Z.of_nat n)%Z →
         ∃ sp, day_span srv planets d' = Ok sp).
Proof.
  revert d hits tr. induction n as [|n IH]; intros d hits tr H.
  - injection H as <- <-. exists []. rewrite app_nil_r.
    split_and!; [done | | constructor | intros; lia].
    intros d' sp. split; [by intros ?%elem_of_nil | lia].
  - cbn [scan_loop] in H.
    apply io_bind_Ok_inv in H as (span & tr1 & tr2 & Hspan & H & ->).
    apply io_bind_Ok_inv in H as (d1 & tr3 & tr4 & Hd & H & ->).
    apply lift_Ok_inv in Hd as [->%date_add_day_inv ->].
    apply IH in H as (new & -> & Hmem & Hsorted & Hall).
    assert (day_span srv planets d = Ok span) as Hds
      by (unfold day_span; by rewrite Hspan).
    assert (∀ y, y ∈ new → (d < y.1)%Z) as Hlater.
    { intros [d' sp] Hy. apply Hmem in Hy. simpl. lia. }
    assert (∀ d', (d ≤ d' < d + Z.of_nat (S n))%Z →
              ∃ sp, day_span srv planets d' = Ok sp) as Hall'.
    { intros d' Hd'. destruct (decide (d' = d)) as [->|Hne]; [eauto|].
      apply Hall. lia. }
    case_bool_decide as Hthr.
    + exists ((d, span) :: new). rewrite <-app_assoc.
      split_and!; [done | | | done].
      * intros d' sp. rewrite elem_of_cons, Hmem. split.
        -- intros [[= -> ->] | (? & ? & ?)]; split_and!; auto; lia.
        -- intros (Hr & Hsp & Hle).
           destruct (decide (d' = d)) as [->|Hne].
           ++ left. rewrite Hds in Hsp. by injection Hsp as ->.
           ++ right. split_and!; auto; lia.
      * constructor; [done|]. apply list.Forall_forall. intros y Hy.
        unfold earlier. simpl. by apply Hlater.
    + exists new. split_and!; [done | | done | done].
      intros d' sp. rewrite Hmem. split.
      * intros (? & ? & ?). split_and!; auto; lia.
      * intros (Hr & Hsp & Hle). destruct (decide (d' = d)) as [->|Hne].
        -- rewrite Hds in Hsp. injection Hsp as ->. done.
        -- split_and!; auto; lia.
Qed.

End Scan.

(** *** Merging consecutive hit days *)
Section Merge.
Import BasicScan.
Context (planets : list string).

Lemma merge_loop_runs (hits : list (date * Qc)) (cs ce : date) (cm : Qc)
    (acc out : list AlignmentHit) :
  merge_loop planets hits cs ce cm acc = Ok out →
  out = acc ++ runs planets hits cs ce cm.
Proof.
  revert cs ce cm acc. induction hits as [|[d sp] hits IH]; intros cs ce cm acc H.
  - by injection H as <-.
  - cbn [merge_loop] in H.
    apply bind_Ok_inv in H as (next & ->%date_add_day_inv & H).
    cbn [runs]. case_bool_decide.
    + by apply IH in H.
    + apply IH in H. by rewrite <-app_assoc in H.
Qed.

Lemma runs_first (hits : list (date * Qc)) (cs ce : date) (cm : Qc) :
  ∃ first rest, runs planets hits cs ce cm = first :: rest
    ∧ start first = cs ∧ (ce ≤ end_ first)%Z.
Proof.
  revert cs ce cm. induction hits as [|[d sp] hits IH]; intros cs ce cm.
  - eexists _, []. split_and!; [done | done | simpl; lia].
  - cbn [runs]. case_bool_decide as Hd.
    + destruct (IH cs d (max2 cm sp)) as (f & r & -> & Hs & He).
      exists f, r. split_and!; [done | done | lia].
    + eexists _, _. split_and!; [done | done | simpl; lia].
Qed.

Lemma GoodRun_extend (Hit : date → Qc → Prop) (cs ce : date) (cm sp : Qc) :
  GoodRun Hit cs ce cm → Hit (ce + 1)%Z sp →
  GoodRun Hit cs (ce + 1)%Z (max2 cm sp).
Proof.
  intros (Hle & Hall & d0 & Hd0 & Hmax) Hnew.
  destruct (max2_spec cm sp) as (Hcm & Hsp & Hor).
  split_and!; [lia | |].
  - intros d Hd. destruct (decide (d = ce + 1)%Z) as [->|Hne].
    + by exists sp.
    + destruct (Hall d) as (s & Hs & Hsm); [lia|].
      exists s. split; [done | by trans cm].
  - destruct Hor as [-> | ->].
    + exists d0. split; [lia | done].
    + exists (ce + 1)%Z. split; [lia | done].
Qed.

Lemma GoodRun_single (Hit : date → Qc → Prop) (d : date) (sp : Qc) :
  Hit d sp → GoodRun Hit d d sp.
Proof.
  intros H. split_and!; [lia | |].
  - intros d' Hd'. replace d' with d by lia. exists sp.
    split; [done | apply Qcle_refl].
  - exists d. split; [lia | done].
Qed.

(** Every interval emitted is a run of hit days carrying their largest span. *)
Lemma runs_good (Hit : date → Qc → Prop) (hits : list (date * Qc))
    (cs ce : date) (cm : Qc) :
  GoodRun Hit cs ce cm → (∀ d sp, (d, sp) ∈ hits → Hit d sp) →
  ∀ iv, iv ∈ runs planets hits cs ce cm →
    GoodRun Hit (start iv) (end_ iv) (max_span_deg iv)
    ∧ BasicScan.planets iv = planets.
Proof.
  revert cs ce cm. induction hits as [|[d sp] hits IH]; intros cs ce cm Hrun Hhits iv.
  - intros ->%list_elem_of_singleton. done.
  - assert (Hit d sp) as Hd by (apply Hhits; left).
    assert (∀ d' sp', (d', sp') ∈ hits → Hit d' sp') as Hrest
      by (intros; apply Hhits; by right).
    cbn [runs]. case_bool_decide as E.
    + subst d. apply IH; [by apply GoodRun_extend | done].
    + intros [->|Hiv]%elem_of_cons; [done|].
      revert Hiv. apply IH; [by apply GoodRun_single | done].
Qed.

(** The intervals are emitted in date order with a gap between them. *)
Lemma runs_separated (hits : list (date * Qc)) (cs ce : date) (cm : Qc) :
  StronglySorted earlier hits → (∀ y, y ∈ hits → (ce < y.1)%Z) → (cs ≤ ce)%Z →
  StronglySorted separated (runs planets hits cs ce cm)
  ∧ ∀ iv, iv ∈ runs planets hits cs ce cm →
      (cs ≤ start iv)%Z ∧ (start iv ≤ end_ iv)%Z.
Proof.
  revert cs ce cm.
  induction hits as [|[d sp] hits IH]; intros cs ce cm Hs Hlater Hle.
  - split; [repeat constructor|].
    intros iv ->%list_elem_of_singleton. simpl. lia.
  - apply StronglySorted_inv in Hs as [Hs Hhd].
    rewrite list.Forall_forall in Hhd.
    assert (ce < d)%Z as Hd by (apply (Hlater (d, sp)); left).
    cbn [runs]. case_bool_decide as E.
    + apply IH; [done | | lia]. intros y Hy. by apply Hhd.
    + destruct (IH d d sp) as [Hsep Hall]; [done | | lia |].
      { intros y Hy. by apply Hhd. }
      split.
      * constructor; [done|]. apply list.Forall_forall. intros iv Hiv.
        destruct (Hall iv Hiv) as [? ?]. unfold separated. simpl. lia.
      * intros iv [->|Hiv]%elem_of_cons; [simpl; lia|].
        destruct (Hall iv Hiv). lia.
Qed.

(** Every hit day lies in one of the intervals. *)
Lemma runs_complete (hits : list (date * Qc)) (cs ce : date) (cm : Qc) :
  (cs ≤ ce)%Z →
  ∀ y, y ∈ hits →
    ∃ iv, iv ∈ runs planets hits cs ce cm ∧ (start iv ≤ y.1 ≤ end_ iv)%Z.
Proof.
  revert cs ce cm. induction hits as [|[d sp] hits IH]; intros cs ce cm Hle y Hy.
  - by apply elem_of_nil in Hy.
  - cbn [runs]. case_bool_decide as E.
    + apply elem_of_cons in Hy as [->|Hy].
      * destruct (runs_first hits cs d (max2 cm sp)) as (f & r & -> & Hs & He).
        exists f. split; [left | simpl; lia].
      * apply IH; [lia | done].
    + apply elem_of_cons in Hy as [->|Hy].
      * destruct (runs_first hits d d sp) as (f & r & -> & Hs & He).
        exists f. split; [right; left | simpl; lia].
      * destruct (IH d d sp ltac:(lia) y Hy) as (iv & Hiv & Hr).
        exists iv. split; [by right | done].
Qed.

Lemma StronglySorted_lookup {A : Type} (R : relation A) (l : list A)
    (i j : nat) (a b : A) :
  StronglySorted R l → (i < j)%nat → l !! i = Some a → l !! j = Some b → R a b.
Proof.
  intros Hs. revert i j. induction Hs as [|x l Hs IH Hall]; intros i j Hij Hi Hj.
  - done.
  - destruct j as [|j]; [lia|]. destruct i as [|i].
    + injection Hi as ->. rewrite list.Forall_forall in Hall.
      apply Hall. by eapply list_elem_of_lookup_2.
    + apply (IH i j); [lia | done | done].
Qed.

End Merge.

(** *** The intervals returned by [list_planetary_alignments] *)
Section Alignments.
Import BasicScan.
Context (srv : service) (start_day end_day : date) (planets : list string)
  (threshold : Qc).

Lemma io_bind_snd_Ok_inv {A B : Type} (m : io A) (k : A → io B) (b : B) :
  (m ≫= k).2 = Ok b → ∃ a, m.2 = Ok a ∧ (k a).2 = Ok b.
Proof.
  destruct (m ≫= k) as [tr r] eqn:E. simpl. intros ->.
  apply io_bind_Ok_inv in E as (a & tr1 & tr2 & -> & Hk & _).
  exists a. by rewrite Hk.
Qed.

Lemma merge_hits_runs (hits : list (date * Qc)) (ivs : list AlignmentHit) :
  merge_hits planets hits = Ok ivs →
  (hits = [] ∧ ivs = [])
  ∨ ∃ d0 s0 rest, hits = (d0, s0) :: rest ∧ ivs = runs planets rest d0 d0 s0.
Proof.
  destruct hits as [|[d0 s0] rest]; simpl.
  - intros [= <-]. by left.
  - intros H%merge_loop_runs. right. by exists d0, s0, rest.
Qed.

(** The facts about a successful call from which the stated properties
    follow. *)
Lemma alignments_facts (ivs : list AlignmentHit) :
  (list_planetary_alignments srv start_day end_day planets threshold).2 = Ok ivs →
  (∀ iv, iv ∈ ivs →
     GoodRun (Hit srv planets threshold start_day end_day)
       (start iv) (end_ iv) (max_span_deg iv)
     ∧ BasicScan.planets iv = planets)
  ∧ StronglySorted separated ivs
  ∧ (∀ d sp, Hit srv planets threshold start_day end_day d sp →
       ∃ iv, iv ∈ ivs ∧ (start iv ≤ d ≤ end_ iv)%Z)
  ∧ (∀ d, (start_day ≤ d ≤ end_day)%Z → ∃ sp, day_span srv planets d = Ok sp).
Proof.
  intros H. unfold list_planetary_alignments in H.
  apply io_bind_snd_Ok_inv in H as (_ & _ & H).
  apply io_bind_snd_Ok_inv in H as (hits & Hscan & Hmerge).
  simpl in Hmerge. unfold scan in Hscan.
  destruct (scan_loop _ _ _ _ _ _) as [tr r] eqn:E in Hscan.
  simpl in Hscan. subst r.
  apply scan_loop_spec in E as (new & -> & Hmem & Hsorted & Hall).
  simpl in Hmerge.
  assert (∀ d sp, (d, sp) ∈ new ↔
            Hit srv planets threshold start_day end_day d sp) as Hhit.
  { intros d sp. rewrite Hmem. unfold Hit. split; intros (? & ? & ?);
      split_and!; auto; lia. }
  assert (∀ d, (start_day ≤ d ≤ end_day)%Z →
            ∃ sp, day_span srv planets d = Ok sp) as Hall'.
  { intros d Hd. apply Hall. lia. }
  clear Hmem Hall.
  apply merge_hits_runs in Hmerge
    as [[-> ->] | (d0 & s0 & rest & -> & ->)].
  - split_and!; [by intros iv ?%elem_of_nil | constructor | | done].
    intros d sp Hd%Hhit. by apply elem_of_nil in Hd.
  - apply StronglySorted_inv in Hsorted as [Hsorted Hhd].
    rewrite list.Forall_forall in Hhd.
    split_and!; [| | | done].
    + apply runs_good.
      * apply GoodRun_single, Hhit. left.
      * intros d sp Hd. apply Hhit. by right.
    + apply runs_separated; [done | | lia].
      intros y Hy. by apply Hhd.
    + intros d sp [[= -> ->]|Hd]%Hhit%elem_of_cons.
      * destruct (runs_first planets rest d0 d0 s0) as (f & r & -> & Hs & He).
        exists f. split; [left | lia].
      * by apply (runs_complete planets rest d0 d0 s0 ltac:(lia) (d, sp)).
Qed.

Lemma check_planets_Ok :
  (∀ p, p ∈ planets → p ∈ keys PLANET_IDS) → check_planets planets = Ok ().
Proof.
  unfold check_planets. induction planets as [|p l IH]; intros Hk; [done|].
  cbn [for_each].
  assert (contains PLANET_IDS p = true) as ->
    by (apply contains_true, Hk; left).
  apply IH. intros x Hx. apply Hk. by right.
Qed.

Lemma lookup_id_Ok (p : string) :
  p ∈ keys PLANET_IDS → ∃ body_id, lookup_id PLANET_IDS p = Ok body_id.
Proof.
  intros (kv & -> & Hkv)%list_elem_of_fmap. unfold lookup_id.
  destruct (list_find_elem_of (λ kv', kv'.1 = kv.1) PLANET_IDS kv Hkv eq_refl)
    as [[i kv'] ->].
  by eexists.
Qed.

Lemma io_for_each_Ok {A S : Type} (xs : list A) (body : S → A → io S) (s : S) :
  (∀ s' x, x ∈ xs → ∃ tr s'', body s' x = (tr, Ok s'')) →
  ∃ tr s', io_for_each xs body s = (tr, Ok s').
Proof.
  revert s. induction xs as [|x xs IH]; intros s Hbody.
  - by exists [], s.
  - destruct (Hbody s x) as (tr1 & s1 & E1); [left|].
    destruct (IH s1) as (tr2 & s2 & E2).
    { intros s' y Hy. apply Hbody. by right. }
    exists (tr1 ++ tr2), s2. cbn [io_for_each].
    unfold mbind, io_mbind, io_bind. rewrite E1. simpl. by rewrite E2.
Qed.

Lemma span_on_day_Ok (d : date) :
  (∀ p, p ∈ planets → p ∈ keys PLANET_IDS) →
  (∀ body_id d', ∃ x, srv body_id d' = Ok x) →
  (d < MAXORDINAL)%Z →
  ∃ tr sp, span_on_day srv planets d = (tr, Ok sp).
Proof.
  intros Hk Hsrv Hd. unfold span_on_day.
  destruct (io_for_each_Ok planets
    (λ lons p,
       body_id ← lift (lookup_id PLANET_IDS p);
       lon ← fetch_geocentric_ecliptic_longitude srv body_id d;
       mret (lons ++ [lon])) []) as (tr & lons & E).
  { intros lons p Hp. destruct (lookup_id_Ok p (Hk p Hp)) as [b Hb].
    destruct (Hsrv b d) as [x Hx].
    exists [(b, d)], (lons ++ [float_mod x (Qc_of_Z 360)]).
    unfold fetch_geocentric_ecliptic_longitude, get, date_add_day.
    rewrite Hb, bool_decide_eq_true_2 by lia.
    unfold mbind, io_mbind, io_bind, lift, mret, io_ret. simpl.
    by rewrite Hx. }
  exists (tr ++ []), (circular_span lons).
  change (fetch_longitudes srv planets d ≫= (λ lons, lift (_circular_span_deg lons))
          = (tr ++ [], Ok (circular_span lons))).
  unfold fetch_longitudes. rewrite E.
  unfold mbind, io_mbind, io_bind, lift. simpl.
  by rewrite basic_span_eq.
Qed.

Lemma scan_loop_Ok (n : nat) (d : date) (hits : list (date * Qc)) :
  (∀ p, p ∈ planets → p ∈ keys PLANET_IDS) →
  (∀ body_id d', ∃ x, srv body_id d' = Ok x) →
  ((0 < n)%nat → (d + Z.of_nat n ≤ MAXORDINAL)%Z) →
  ∃ tr out, scan_loop srv planets threshold n d hits = (tr, Ok out).
Proof.
  intros Hk Hsrv. revert d hits. induction n as [|n IH]; intros d hits Hd.
  - by exists [], hits.
  - specialize (Hd ltac:(lia)).
    assert (d < MAXORDINAL)%Z as Hlt by lia.
    destruct (span_on_day_Ok d Hk Hsrv Hlt) as (tr1 & sp & E1).
    assert (date_add_day d = Ok (d + 1)%Z) as Hd1
      by (unfold date_add_day; by rewrite bool_decide_eq_true_2 by lia).
    cbn [scan_loop]. rewrite E1, Hd1.
    unfold mbind, io_mbind, io_bind, lift. cbn [fst snd].
    edestruct (IH (d + 1)%Z) as (tr2 & out & E2); [lia|].
    rewrite E2. by eexists _, _.
Qed.

Lemma merge_loop_Ok (hits : list (date * Qc)) (cs ce : date) (cm : Qc)
    (acc : list AlignmentHit) :
  (ce < MAXORDINAL)%Z → (∀ y, y ∈ hits → (y.1 < MAXORDINAL)%Z) →
  ∃ out, merge_loop planets hits cs ce cm acc = Ok out.
Proof.
  revert cs ce cm acc.
  induction hits as [|[d sp] hits IH]; intros cs ce cm acc Hce Hall.
  - by eexists.
  - assert (d < MAXORDINAL)%Z by (apply (Hall (d, sp)); left).
    assert (∀ y, y ∈ hits → (y.1 < MAXORDINAL)%Z)
      by (intros; apply Hall; by right).
    assert (date_add_day ce = Ok (ce + 1)%Z) as Hd1
      by (unfold date_add_day; by rewrite bool_decide_eq_true_2 by lia).
    cbn [merge_loop]. rewrite Hd1. cbn [mbind result_bind bind].
    case_bool_decide; by apply IH.
Qed.

(** The call returns intervals whenever every name is known, the provider
    answers every request and the window ends before [date.max]. *)
Lemma list_planetary_alignments_returns :
  (∀ p, p ∈ planets → p ∈ keys PLANET_IDS) →
  (∀ body_id d, ∃ x, srv body_id d = Ok x) →
  (end_day < MAXORDINAL)%Z →
  ∃ ivs,
    (list_planetary_alignments srv start_day end_day planets threshold).2
    = Ok ivs.
Proof.
  intros Hk Hsrv He. unfold list_planetary_alignments.
  rewrite check_planets_Ok by done.
  destruct (scan_loop_Ok (Z.to_nat (end_day - start_day + 1)) start_day []
              Hk Hsrv) as (tr & hits & E).
  { intros Hn. lia. }
  pose proof E as E'.
  apply scan_loop_spec in E' as (new & -> & Hmem & _ & _).
  assert (∃ ivs, merge_hits planets ([] ++ new) = Ok ivs) as [ivs Hm].
  { simpl. destruct new as [|[d0 s0] rest]; [by eexists|].
    apply merge_loop_Ok.
    - assert ((d0, s0) ∈ (d0, s0) :: rest) as H%Hmem by left. lia.
    - intros [d sp] Hy.
      assert ((d, sp) ∈ (d0, s0) :: rest) as H%Hmem by by right.
      simpl. lia. }
  exists ivs. unfold scan. unfold mbind, io_mbind, io_bind, lift. simpl.
  rewrite E. simpl. done.
Qed.

End Alignments.

Section AlignmentClaims.
Import BasicScan.

(** C1: every interval returned by [list_planetary_alignments] has
    [start <= end] inside the scanned window; every day of it was given a
    span within the threshold; and its [max_span_deg] is the largest of those
    daily spans - an upper bound of all of them that one of them attains -
    hence within the threshold too. *)
Theorem alignment_intervals_are_hit_runs (srv : service)
    (start_day end_day : date) (planets : list string) (threshold : Qc)
    (ivs : list AlignmentHit) (iv : AlignmentHit) :
  (list_planetary_alignments srv start_day end_day planets threshold).2 = Ok ivs →
  iv ∈ ivs →
  (start iv ≤ end_ iv)%Z
  ∧ (start_day ≤ start iv)%Z ∧ (end_ iv ≤ end_day)%Z
  ∧ (∀ d, (start iv ≤ d ≤ end_ iv)%Z →
       ∃ sp, day_span srv planets d = Ok sp
             ∧ sp ≤ threshold ∧ sp ≤ max_span_deg iv)
  ∧ (∃ d, (start iv ≤ d ≤ end_ iv)%Z
          ∧ day_span srv planets d = Ok (max_span_deg iv))
  ∧ max_span_deg iv ≤ threshold
  ∧ BasicScan.planets iv = planets.
Proof.
  intros H Hiv.
  destruct (alignments_facts _ _ _ _ _ _ H) as (Hgood & _).
  destruct (Hgood iv Hiv) as [(Hle & Hall & d0 & Hd0 & Hr0 & Hs0 & Ht0) Hpl].
  destruct (Hall (start iv)) as (s1 & (? & _) & _); [lia|].
  destruct (Hall (end_ iv)) as (s2 & (? & _) & _); [lia|].
  split_and!; [done | lia | lia | | by exists d0 | done | done].
  intros d Hd. destruct (Hall d Hd) as (sp & (_ & Hsp & Hthr) & Hmax).
  by exists sp.
Qed.

(** C10: the intervals come in strictly increasing date order and are
    disjoint: a later interval starts at least two days after an earlier one
    ends, and every day between two consecutive intervals was scanned and
    found above the threshold. *)
Theorem alignment_intervals_are_separated (srv : service)
    (start_day end_day : date) (planets : list string) (threshold : Qc)
    (ivs : list AlignmentHit) (i j : nat) (a b : AlignmentHit) :
  (list_planetary_alignments srv start_day end_day planets threshold).2 = Ok ivs →
  (i < j)%nat → ivs !! i = Some a → ivs !! j = Some b →
  (end_ a + 2 ≤ start b)%Z
  ∧ (start a ≤ end_ a)%Z ∧ (start b ≤ end_ b)%Z
  ∧ (j = S i →
     ∀ d, (end_ a < d < start b)%Z →
       ∃ sp, day_span srv planets d = Ok sp ∧ threshold < sp).
Proof.
  intros H Hij Ha Hb.
  destruct (alignments_facts _ _ _ _ _ _ H) as (Hgood & Hsep & Hcover & Hall).
  assert (∀ k iv, ivs !! k = Some iv →
            (start_day ≤ start iv)%Z ∧ (start iv ≤ end_ iv)%Z
            ∧ (end_ iv ≤ end_day)%Z) as Hin.
  { intros k iv Hk.
    destruct (Hgood iv) as [(Hle & Hd & _) _];
      [by eapply list_elem_of_lookup_2|].
    destruct (Hd (start iv)) as (s1 & (? & _) & _); [lia|].
    destruct (Hd (end_ iv)) as (s2 & (? & _) & _); [lia|]. lia. }
  pose proof (StronglySorted_lookup separated ivs i j a b Hsep Hij Ha Hb) as Hab.
  destruct (Hin i a Ha) as (? & ? & ?). destruct (Hin j b Hb) as (? & ? & ?).
  unfold separated in Hab. split_and!; [done | done | done |].
  intros -> d Hd.
  destruct (Hall d) as [sp Hsp]; [lia|]. exists sp. split; [done|].
  apply Qcnot_le_lt. intros Hle.
  destruct (Hcover d sp) as (iv & [k Hk]%list_elem_of_lookup & Hr).
  { unfold Hit. split_and!; (lia || done). }
  destruct (Hin k iv Hk) as (? & ? & ?).
  destruct (lt_eq_lt_dec k i) as [[Hlt | ->] | Hgt].
  - pose proof (StronglySorted_lookup separated ivs k i iv a Hsep Hlt Hk Ha) as S1.
    unfold separated in S1. lia.
  - rewrite Ha in Hk. injection Hk as ->. lia.
  - destruct (decide (k = S i)) as [-> | Hne].
    + rewrite Hb in Hk. injection Hk as ->. lia.
    + assert (S i < k)%nat as Hlt by lia.
      pose proof (StronglySorted_lookup separated ivs (S i) k b iv Hsep Hlt Hb Hk)
        as S1.
      unfold separated in S1. lia.
Qed.

End AlignmentClaims.

Section AlignmentExamples.
Import BasicScan.

(** A scan of five days with one day out of alignment in the middle. *)
Lemma example_scan :
  (list_planetary_alignments example_service 1%Z 5%Z
     ["Mars"; "Venus"]%string (Qc_of_Z 10)).2
  = Ok [mkAlignmentHit 1%Z 2%Z ["Mars"; "Venus"]%string (Qc_of_Z 2);
        mkAlignmentHit 4%Z 5%Z ["Mars"; "Venus"]%string (Qc_of_Z 5)].
Proof. by_eval. Defined.

Lemma alignment_intervals_are_hit_runs_witness :
  (list_planetary_alignments example_service 1%Z 5%Z
     ["Mars"; "Venus"]%string (Qc_of_Z 10)).2
  = Ok [mkAlignmentHit 1%Z 2%Z ["Mars"; "Venus"]%string (Qc_of_Z 2);
        mkAlignmentHit 4%Z 5%Z ["Mars"; "Venus"]%string (Qc_of_Z 5)]
  ∧ mkAlignmentHit 4%Z 5%Z ["Mars"; "Venus"]%string (Qc_of_Z 5)
    ∈ [mkAlignmentHit 1%Z 2%Z ["Mars"; "Venus"]%string (Qc_of_Z 2);
       mkAlignmentHit 4%Z 5%Z ["Mars"; "Venus"]%string (Qc_of_Z 5)]
  ∧ (∃ d, (4 ≤ d ≤ 5)%Z
          ∧ day_span example_service ["Mars"; "Venus"]%string d = Ok (Qc_of_Z 5))
  ∧ Qc_of_Z 5 ≤ Qc_of_Z 10.
Proof.
  assert (mkAlignmentHit 4%Z 5%Z ["Mars"; "Venus"]%string (Qc_of_Z 5)
          ∈ [mkAlignmentHit 1%Z 2%Z ["Mars"; "Venus"]%string (Qc_of_Z 2);
             mkAlignmentHit 4%Z 5%Z ["Mars"; "Venus"]%string (Qc_of_Z 5)]) as Hin
    by (right; left).
  split; [exact example_scan|]. split; [exact Hin|].
  destruct (alignment_intervals_are_hit_runs example_service 1%Z 5%Z
              ["Mars"; "Venus"]%string (Qc_of_Z 10) _ _ example_scan Hin)
    as (_ & _ & _ & _ & Hmax & Hthr & _).
  exact (conj Hmax Hthr).
Defined.

Lemma alignment_intervals_are_separated_witness :
  (list_planetary_alignments example_service 1%Z 5%Z
     ["Mars"; "Venus"]%string (Qc_of_Z 10)).2
  = Ok [mkAlignmentHit 1%Z 2%Z ["Mars"; "Venus"]%string (Qc_of_Z 2);
        mkAlignmentHit 4%Z 5%Z ["Mars"; "Venus"]%string (Qc_of_Z 5)]
  ∧ (0 < 1)%nat
  ∧ (2 + 2 ≤ 4)%Z
  ∧ (1%nat = 1%nat →
     ∀ d, (2 < d < 4)%Z →
       ∃ sp, day_span example_service ["Mars"; "Venus"]%string d = Ok sp
             ∧ Qc_of_Z 10 < sp).
Proof.
  assert (0 < 1)%nat as Hlt by lia.
  split; [exact example_scan|]. split; [exact Hlt|].
  destruct (alignment_intervals_are_separated example_service 1%Z 5%Z
              ["Mars"; "Venus"]%string (Qc_of_Z 10) _ 0 1 _ _
              example_scan Hlt eq_refl eq_refl)
    as (Hsep & _ & _ & Hgap).
  exact (conj Hsep Hgap).
Defined.

End AlignmentExamples.

(** ** Part III: further properties of the code *)

(** *** The span is the length of the shortest arc holding every angle *)
Section CoveringArc.








End CoveringArc.

Section SpanMeaning.












End SpanMeaning.

(** *** The scan: what it reports, what it asks, how it fails *)
Section ScanBehaviour.
Import BasicScan.
Context (srv : service) (planets : list string) (threshold : Qc).

Lemma days_from_S (d : date) (n : nat) :
  days_from d (S n) = d :: days_from (d + 1)%Z n.
Proof.
  unfold days_from. cbn [seq fmap list_fmap]. f_equal; [lia|].
  rewrite <-fmap_S_seq, <-list_fmap_compose.
  apply list_fmap_ext. intros _ i _. simpl. lia.
Qed.

Lemma date_add_day_bound (d d' : date) :
  date_add_day d = Ok d' → d' = (d + 1)%Z ∧ (d + 1 ≤ MAXORDINAL)%Z.
Proof.
  unfold date_add_day. destruct (decide (d + 1 ≤ MAXORDINAL)%Z).
  - rewrite bool_decide_eq_true_2 by done. by intros [= <-].
  - by rewrite bool_decide_eq_false_2 by done.
Qed.

Lemma fetch_inv (b : string) (d : date) (tr : list request) (x : Qc) :
  fetch_geocentric_ecliptic_longitude srv b d = (tr, Ok x) →
  tr = [(b, d)] ∧ (d < MAXORDINAL)%Z
  ∧ ∃ lon, srv b d = Ok lon ∧ x = float_mod lon (Qc_of_Z 360).
Proof.
  unfold fetch_geocentric_ecliptic_longitude. intros H.
  apply io_bind_Ok_inv in H as (d' & tr1 & tr2 & Hd & H & ->).
  apply lift_Ok_inv in Hd as [Hd ->].
  apply io_bind_Ok_inv in H as (lon & tr3 & tr4 & Hget & H & ->).
  unfold get in Hget. injection Hget as <- Hsrv. injection H as <- <-.
  split_and!; [done | | by exists lon].
  apply date_add_day_bound in Hd as [_ ?]. lia.
Qed.

Lemma fetch_longitudes_inv (d : date) (acc : list Qc) (tr : list request)
    (lons : list Qc) :
  io_for_each planets
    (λ lons p,
       body_id ← lift (lookup_id PLANET_IDS p);
       lon ← fetch_geocentric_ecliptic_longitude srv body_id d;
       mret (lons ++ [lon])) acc = (tr, Ok lons) →
  tr = day_requests planets d ∧ (planets ≠ [] → (d < MAXORDINAL)%Z).
Proof.
  revert acc tr. induction planets as [|p l IH]; intros acc tr H.
  - by injection H as <- _.
  - cbn [io_for_each] in H.
    apply io_bind_Ok_inv in H as (acc' & tr1 & tr2 & Hbody & H & ->).
    apply IH in H as [-> _].
    apply io_bind_Ok_inv in Hbody as (b & tr3 & tr4 & Hb & Hbody & ->).
    apply lift_Ok_inv in Hb as [Hb ->].
    apply io_bind_Ok_inv in Hbody as (lon & tr5 & tr6 & Hf & Hret & ->).
    apply fetch_inv in Hf as (-> & Hd & _). injection Hret as <- _.
    assert (body_id p = b) as Hid by (unfold body_id; by rewrite Hb).
    split; [|done]. unfold day_requests. cbn [fmap list_fmap].
    by rewrite Hid.
Qed.

Lemma span_on_day_inv (d : date) (tr : list request) (sp : Qc) :
  span_on_day srv planets d = (tr, Ok sp) →
  tr = day_requests planets d ∧ (planets ≠ [] → (d < MAXORDINAL)%Z).
Proof.
  unfold span_on_day, fetch_longitudes. intros H.
  apply io_bind_Ok_inv in H as (lons & tr1 & tr2 & Hl & H & ->).
  apply lift_Ok_inv in H as [_ ->]. rewrite app_nil_r.
  by apply fetch_longitudes_inv in Hl.
Qed.

Lemma scan_loop_log (n : nat) (d : date) (hits : list (date * Qc))
    (tr : list request) (out : list (date * Qc)) :
  scan_loop srv planets threshold n d hits = (tr, Ok out) →
  tr = days_from d n ≫= day_requests planets
  ∧ ((0 < n)%nat → (d + Z.of_nat n ≤ MAXORDINAL)%Z).
Proof.
  revert d hits tr. induction n as [|n IH]; intros d hits tr H.
  - injection H as <- _. split; [done | lia].
  - cbn [scan_loop] in H.
    apply io_bind_Ok_inv in H as (span & tr1 & tr2 & Hspan & H & ->).
    apply io_bind_Ok_inv in H as (d1 & tr3 & tr4 & Hd & H & ->).
    apply lift_Ok_inv in Hd as [Hd ->].
    apply date_add_day_bound in Hd as [-> Hmax].
    apply IH in H as [-> Hn]. apply span_on_day_inv in Hspan as [-> _].
    split; [by rewrite days_from_S | intros _].
    destruct n; [lia | specialize (Hn ltac:(lia)); lia].
Qed.

End ScanBehaviour.

Section ScanTheorems.
Import BasicScan.

Lemma io_bind_snd_Raise {A B : Type} (m : io A) (k : A → io B) (e : exn) :
  m.2 = Raise e → (m ≫= k).2 = Raise e.
Proof.
  unfold mbind, io_mbind, io_bind. destruct m as [tr r]. simpl. by intros ->.
Qed.

Lemma io_bind_snd_Ok {A B : Type} (m : io A) (k : A → io B) (a : A) :
  m.2 = Ok a → (m ≫= k).2 = (k a).2.
Proof.
  unfold mbind, io_mbind, io_bind. destruct m as [tr r]. simpl. by intros ->.
Qed.

Lemma lpa_inv (srv : service) (start_day end_day : date)
    (planets : list string) (threshold : Qc) (tr : list request)
    (ivs : list AlignmentHit) :
  list_planetary_alignments srv start_day end_day planets threshold
    = (tr, Ok ivs) →
  ∃ hits, scan srv start_day end_day planets threshold = (tr, Ok hits)
    ∧ merge_hits planets hits = Ok ivs
    ∧ check_planets planets = Ok ().
Proof.
  unfold list_planetary_alignments. intros H.
  apply io_bind_Ok_inv in H as (u & tr1 & tr2 & Hc & H & ->).
  apply lift_Ok_inv in Hc as [Hc ->]. destruct u.
  apply io_bind_Ok_inv in H as (hits & tr3 & tr4 & Hs & H & ->).
  apply lift_Ok_inv in H as [H ->]. exists hits.
  by rewrite app_nil_r.
Qed.

(** X6.  On success the returned intervals hold exactly the hit days: a day
    lies inside some interval if and only if it is a day of the window whose
    span was computed and is within the threshold; and no day lies inside
    two intervals. *)
Theorem interval_days_are_the_hit_days (srv : service)
    (start_day end_day : date) (planets : list string) (threshold : Qc)
    (ivs : list AlignmentHit) (d : date) :
  (list_planetary_alignments srv start_day end_day planets threshold).2 = Ok ivs →
  ((∃ iv, iv ∈ ivs ∧ inside d iv)
   ↔ (start_day ≤ d ≤ end_day)%Z
     ∧ ∃ sp, day_span srv planets d = Ok sp ∧ sp ≤ threshold)
  ∧ (∀ i j a b, ivs !! i = Some a → ivs !! j = Some b →
       inside d a → inside d b → i = j).
Proof.
  intros H.
  destruct (alignments_facts _ _ _ _ _ _ H) as (Hgood & Hsep & Hcover & _).
  split; [split|].
  - intros (iv & Hiv & Hin).
    destruct (Hgood iv Hiv) as [(_ & Hall & _) _].
    destruct (Hall d Hin) as (sp & (Hr & Hsp & Hthr) & _). eauto.
  - intros (Hr & sp & Hsp & Hthr). by apply (Hcover d sp).
  - assert (∀ i j a b, (i < j)%nat → ivs !! i = Some a → ivs !! j = Some b →
              inside d a → inside d b → False) as Hlt.
    { intros i j a b Hij Ha Hb Hda Hdb.
      pose proof (StronglySorted_lookup separated ivs i j a b Hsep Hij Ha Hb) as S.
      unfold separated, inside in *. lia. }
    intros i j a b Ha Hb Hda Hdb.
    destruct (lt_eq_lt_dec i j) as [[Hij | ->] | Hji]; [|done|].
    + destruct (Hlt i j a b Hij Ha Hb Hda Hdb).
    + destruct (Hlt j i b a Hji Hb Ha Hdb Hda).
Qed.

Lemma interval_days_are_the_hit_days_witness :
  (list_planetary_alignments example_service 1%Z 5%Z
     ["Mars"; "Venus"]%string (Qc_of_Z 10)).2
  = Ok [mkAlignmentHit 1%Z 2%Z ["Mars"; "Venus"]%string (Qc_of_Z 2);
        mkAlignmentHit 4%Z 5%Z ["Mars"; "Venus"]%string (Qc_of_Z 5)]
  ∧ ((∃ iv, iv ∈ [mkAlignmentHit 1%Z 2%Z ["Mars"; "Venus"]%string (Qc_of_Z 2);
                  mkAlignmentHit 4%Z 5%Z ["Mars"; "Venus"]%string (Qc_of_Z 5)]
            ∧ inside 3%Z iv)
     ↔ (1 ≤ 3 ≤ 5)%Z
       ∧ ∃ sp, day_span example_service ["Mars"; "Venus"]%string 3%Z = Ok sp
               ∧ sp ≤ Qc_of_Z 10).
Proof.
  split; [exact example_scan|].
  exact (proj1 (interval_days_are_the_hit_days example_service 1%Z 5%Z
                  ["Mars"; "Venus"]%string (Qc_of_Z 10) _ 3%Z example_scan)).
Defined.

(** X7.  On success the requests sent are exactly one per day of the window
    and planet, day by day and within a day in the caller's planet order;
    nothing is cached, skipped or repeated. *)
Theorem requests_are_one_per_day_and_planet (srv : service)
    (start_day end_day : date) (planets : list string) (threshold : Qc)
    (tr : list request) (ivs : list AlignmentHit) :
  list_planetary_alignments srv start_day end_day planets threshold
    = (tr, Ok ivs) →
  tr = window start_day end_day ≫= day_requests planets
  ∧ length tr = (length (window start_day end_day) * length planets)%nat.
Proof.
  intros (hits & Hs & _)%lpa_inv. unfold scan in Hs.
  apply scan_loop_log in Hs as [-> _]. split; [done|].
  unfold window. generalize (days_from start_day (Z.to_nat (end_day - start_day + 1))).
  intros l. induction l as [|d l IH]; [done|].
  change ((d :: l) ≫= day_requests planets)
    with (day_requests planets d ++ (l ≫= day_requests planets)).
  rewrite length_app, IH. unfold day_requests. rewrite length_fmap. simpl. lia.
Qed.

Lemma requests_are_one_per_day_and_planet_witness :
  list_planetary_alignments example_service 4%Z 5%Z
    ["Mars"; "Venus"]%string (Qc_of_Z 10)
  = ([("499", 4%Z); ("299", 4%Z); ("499", 5%Z); ("299", 5%Z)]%string,
     Ok [mkAlignmentHit 4%Z 5%Z ["Mars"; "Venus"]%string (Qc_of_Z 5)])
  ∧ [("499", 4%Z); ("299", 4%Z); ("499", 5%Z); ("299", 5%Z)]%string
    = window 4%Z 5%Z ≫= day_requests ["Mars"; "Venus"]%string.
Proof.
  assert (list_planetary_alignments example_service 4%Z 5%Z
            ["Mars"; "Venus"]%string (Qc_of_Z 10)
          = ([("499", 4%Z); ("299", 4%Z); ("499", 5%Z); ("299", 5%Z)]%string,
             Ok [mkAlignmentHit 4%Z 5%Z ["Mars"; "Venus"]%string (Qc_of_Z 5)]))
    as H by by_eval.
  split; [exact H|].
  exact (proj1 (requests_are_one_per_day_and_planet _ _ _ _ _ _ _ H)).
Defined.

Lemma scan_loop_first_failure (srv : service) (planets : list string)
    (threshold : Qc) (n : nat) (d d0 : date) (hits : list (date * Qc))
    (ex : exn) :
  (d ≤ d0 < d + Z.of_nat n)%Z → (d0 ≤ MAXORDINAL)%Z →
  (∀ d', (d ≤ d' < d0)%Z → ∃ sp, day_span srv planets d' = Ok sp) →
  day_span srv planets d0 = Raise ex →
  (scan_loop srv planets threshold n d hits).2 = Raise ex.
Proof.
  revert d hits. induction n as [|n IH]; intros d hits Hr Hmax Hok Hfail; [lia|].
  cbn [scan_loop]. destruct (decide (d = d0)) as [->|Hne].
  - by apply io_bind_snd_Raise.
  - destruct (Hok d) as [sp Hsp]; [lia|].
    rewrite (io_bind_snd_Ok _ _ sp) by done.
    assert (date_add_day d = Ok (d + 1)%Z) as Hd1
      by (unfold date_add_day; by rewrite bool_decide_eq_true_2 by lia).
    rewrite Hd1. rewrite (io_bind_snd_Ok _ _ (d + 1)%Z) by done.
    apply IH; [lia | done | | done]. intros d' Hd'. apply Hok. lia.
Qed.

(** X8.  The first failure of the provider is what the caller gets: when
    every name is known and the span of some day of the window cannot be
    computed, the call raises the exception of the first such day; it
    returns no intervals and substitutes no value. *)
Theorem first_provider_failure_is_raised (srv : service)
    (start_day end_day : date) (planets : list string) (threshold : Qc)
    (d0 : date) (ex : exn) :
  (∀ p, p ∈ planets → p ∈ keys PLANET_IDS) →
  (start_day ≤ d0 ≤ end_day)%Z → (end_day ≤ MAXORDINAL)%Z →
  (∀ d, (start_day ≤ d < d0)%Z → ∃ sp, day_span srv planets d = Ok sp) →
  day_span srv planets d0 = Raise ex →
  (list_planetary_alignments srv start_day end_day planets threshold).2
  = Raise ex.
Proof.
  intros Hk Hr Hmax Hok Hfail. unfold list_planetary_alignments.
  rewrite (check_planets_Ok planets Hk).
  rewrite (io_bind_snd_Ok _ _ ()) by done.
  apply io_bind_snd_Raise. unfold scan.
  apply (scan_loop_first_failure _ _ _ _ _ d0); [lia | lia | done | done].
Qed.

End ScanTheorems.

Section ScanEdges.
Import BasicScan.

Lemma known_mars_venus :
  ∀ p, p ∈ ["Mars"; "Venus"]%string → p ∈ keys PLANET_IDS.
Proof.
  intros p [->|[->|H]%elem_of_cons]%elem_of_cons;
    [by_eval | by_eval | by apply elem_of_nil in H].
Qed.

Lemma first_provider_failure_is_raised_witness :
  (∀ p, p ∈ ["Mars"; "Venus"]%string → p ∈ keys PLANET_IDS)
  ∧ (1 ≤ 3 ≤ 5)%Z ∧ (5 ≤ MAXORDINAL)%Z
  ∧ (∀ d, (1 ≤ d < 3)%Z →
       ∃ sp, day_span failing_service ["Mars"; "Venus"]%string d = Ok sp)
  ∧ day_span failing_service ["Mars"; "Venus"]%string 3%Z
    = Raise (RequestError "503 Server Error")
  ∧ (list_planetary_alignments failing_service 1%Z 5%Z
       ["Mars"; "Venus"]%string (Qc_of_Z 10)).2
    = Raise (RequestError "503 Server Error").
Proof.
  assert (1 ≤ 3 ≤ 5)%Z as H1 by lia.
  assert (5 ≤ MAXORDINAL)%Z as H2 by (unfold MAXORDINAL; lia).
  assert (∀ d, (1 ≤ d < 3)%Z →
            ∃ sp, day_span failing_service ["Mars"; "Venus"]%string d = Ok sp)
    as H3.
  { intros d Hd. assert (d = 1 ∨ d = 2)%Z as [-> | ->] by lia.
    - exists (Qc_of_Z 1). by_eval.
    - exists (Qc_of_Z 2). by_eval. }
  assert (day_span failing_service ["Mars"; "Venus"]%string 3%Z
          = Raise (RequestError "503 Server Error")) as H4 by by_eval.
  split; [exact known_mars_venus|]. split; [exact H1|]. split; [exact H2|].
  split; [exact H3|]. split; [exact H4|].
  exact (first_provider_failure_is_raised failing_service 1%Z 5%Z
           ["Mars"; "Venus"]%string (Qc_of_Z 10) 3%Z _
           known_mars_venus H1 H2 H3 H4).
Defined.

(** X9.  A window that reaches [date.max] is never reported: the step past
    the last day overflows, so the call raises instead of returning
    intervals, whatever the provider answers. *)
Theorem window_ending_on_date_max_never_returns (srv : service)
    (start_day end_day : date) (planets : list string) (threshold : Qc)
    (ivs : list AlignmentHit) :
  (start_day ≤ end_day)%Z → (MAXORDINAL ≤ end_day)%Z →
  (list_planetary_alignments srv start_day end_day planets threshold).2
  ≠ Ok ivs.
Proof.
  intros Hle Hmax H.
  destruct (list_planetary_alignments srv start_day end_day planets threshold)
    as [tr r] eqn:E. simpl in H. subst r.
  apply lpa_inv in E as (hits & Hs & _). unfold scan in Hs.
  apply scan_loop_log in Hs as [_ Hn]. specialize (Hn ltac:(lia)). lia.
Qed.

Lemma window_ending_on_date_max_never_returns_witness :
  (3652058 ≤ 3652059)%Z ∧ (MAXORDINAL ≤ 3652059)%Z
  ∧ (list_planetary_alignments example_service 3652058%Z 3652059%Z
       ["Mars"; "Venus"]%string (Qc_of_Z 10)).2
    ≠ Ok [].
Proof.
  assert (3652058 ≤ 3652059)%Z as H1 by lia.
  assert (MAXORDINAL ≤ 3652059)%Z as H2 by (unfold MAXORDINAL; lia).
  split; [exact H1|]. split; [exact H2|].
  exact (window_ending_on_date_max_never_returns example_service _ _
           ["Mars"; "Venus"]%string (Qc_of_Z 10) [] H1 H2).
Defined.

(** X20.  The call returns intervals whenever every name is known, the
    provider answers every request and the window ends before [date.max];
    nothing else can make it raise. *)
Theorem scan_returns_when_provider_answers (srv : service)
    (start_day end_day : date) (planets : list string) (threshold : Qc) :
  (∀ p, p ∈ planets → p ∈ keys PLANET_IDS) →
  (∀ body_id d, ∃ x, srv body_id d = Ok x) →
  (end_day < MAXORDINAL)%Z →
  ∃ ivs,
    (list_planetary_alignments srv start_day end_day planets threshold).2
    = Ok ivs.
Proof. apply list_planetary_alignments_returns. Qed.

Lemma scan_returns_when_provider_answers_witness :
  (∀ p, p ∈ ["Mars"; "Venus"]%string → p ∈ keys PLANET_IDS)
  ∧ (∀ body_id d, ∃ x, example_service body_id d = Ok x)
  ∧ (5 < MAXORDINAL)%Z
  ∧ ∃ ivs,
      (list_planetary_alignments example_service 1%Z 5%Z
         ["Mars"; "Venus"]%string (Qc_of_Z 10)).2 = Ok ivs.
Proof.
  assert (∀ body_id d, ∃ x, example_service body_id d = Ok x) as H2.
  { intros b d. unfold example_service. case_bool_decide; by eexists. }
  assert (5 < MAXORDINAL)%Z as H3 by (unfold MAXORDINAL; lia).
  split; [exact known_mars_venus|]. split; [exact H2|]. split; [exact H3|].
  exact (scan_returns_when_provider_answers example_service 1%Z 5%Z
           ["Mars"; "Venus"]%string (Qc_of_Z 10) known_mars_venus H2 H3).
Defined.

Lemma span_on_day_nil (srv : service) (d : date) :
  span_on_day srv [] d = ([], Ok 0).
Proof. reflexivity. Qed.

Lemma scan_loop_nil (srv : service) (threshold : Qc) (n : nat) (d : date)
    (hits : list (date * Qc)) :
  ((0 < n)%nat → (d + Z.of_nat n ≤ MAXORDINAL)%Z) →
  scan_loop srv [] threshold n d hits
  = ([], Ok (hits ++ if bool_decide (0 ≤ threshold)
                     then (λ d', (d', Q2Qc 0)) <$> days_from d n else [])).
Proof.
  revert d hits. induction n as [|n IH]; intros d hits Hn.
  - simpl. unfold days_from. simpl. case_bool_decide; by rewrite app_nil_r.
  - specialize (Hn ltac:(lia)).
    assert (date_add_day d = Ok (d + 1)%Z) as Hd1
      by (unfold date_add_day; by rewrite bool_decide_eq_true_2 by lia).
    cbn [scan_loop]. rewrite span_on_day_nil, Hd1.
    unfold mbind, io_mbind, io_bind, lift. cbn [fst snd app].
    fold (@mbind io _). rewrite IH by lia. cbn [fst snd].
    rewrite days_from_S. case_bool_decide; [|done].
    by rewrite <-app_assoc.
Qed.

Lemma merge_loop_consecutive (planets : list string) (n : nat)
    (cs ce : date) (acc : list AlignmentHit) :
  (ce + Z.of_nat n ≤ MAXORDINAL)%Z →
  merge_loop planets ((λ d', (d', Q2Qc 0)) <$> days_from (ce + 1)%Z n)
    cs ce 0 acc
  = Ok (acc ++ [mkAlignmentHit cs (ce + Z.of_nat n)%Z planets 0]).
Proof.
  revert ce. induction n as [|n IH]; intros ce Hmax.
  - simpl. by rewrite Z.add_0_r.
  - assert (date_add_day ce = Ok (ce + 1)%Z) as Hd1
      by (unfold date_add_day; by rewrite bool_decide_eq_true_2 by lia).
    rewrite days_from_S. cbn [fmap list_fmap merge_loop]. rewrite Hd1.
    cbn [mbind result_bind bind]. rewrite bool_decide_eq_true_2 by done.
    assert (max2 0 0 = 0) as -> by by_eval.
    replace (ce + Z.of_nat (S n))%Z with (ce + 1 + Z.of_nat n)%Z by lia.
    apply IH. lia.
Qed.

(** X10.  With no planet at all, no request is sent and every day is a hit
    of span 0: for a non-negative threshold the call returns the whole
    window as one interval, for a negative threshold it returns none. *)
Theorem no_planet_reports_the_whole_window (srv : service)
    (start_day end_day : date) (threshold : Qc) :
  (start_day ≤ end_day)%Z → (end_day < MAXORDINAL)%Z →
  list_planetary_alignments srv start_day end_day [] threshold
  = ([], Ok (if bool_decide (0 ≤ threshold)
             then [mkAlignmentHit start_day end_day [] 0] else [])).
Proof.
  intros Hle Hmax. unfold list_planetary_alignments, scan.
  change (check_planets []) with (Ok ()).
  rewrite scan_loop_nil by lia.
  unfold mbind, io_mbind, io_bind, lift. cbn [fst snd app].
  case_bool_decide; [|done].
  replace (Z.to_nat (end_day - start_day + 1))
    with (S (Z.to_nat (end_day - start_day))) by lia.
  rewrite days_from_S. cbn [fmap list_fmap merge_hits].
  rewrite merge_loop_consecutive by lia.
  replace (start_day + Z.of_nat (Z.to_nat (end_day - start_day)))%Z
    with end_day by lia.
  done.
Qed.

Lemma no_planet_reports_the_whole_window_witness :
  (1 ≤ 5)%Z ∧ (5 < MAXORDINAL)%Z
  ∧ list_planetary_alignments example_service 1%Z 5%Z [] (Qc_of_Z 10)
    = ([], Ok (if bool_decide (0 ≤ Qc_of_Z 10)
               then [mkAlignmentHit 1%Z 5%Z [] 0] else [])).
Proof.
  assert (1 ≤ 5)%Z as H1 by lia.
  assert (5 < MAXORDINAL)%Z as H2 by (unfold MAXORDINAL; lia).
  split; [exact H1|]. split; [exact H2|].
  exact (no_planet_reports_the_whole_window example_service 1%Z 5%Z
           (Qc_of_Z 10) H1 H2).
Defined.

End ScanEdges.

(** *** One fetch *)
Section Fetch.
Import BasicScan.



End Fetch.

(** *** The plotting helper [compute_spans] *)
Section ComputeSpans.
Import BasicScan.

Lemma io_bind_Ok_intro {A B : Type} (m : io A) (k : A → io B)
    (tr1 tr2 : list request) (a : A) (r : result B) :
  m = (tr1, Ok a) → k a = (tr2, r) → m ≫= k = (tr1 ++ tr2, r).
Proof.
  intros -> Hk. unfold mbind, io_mbind, io_bind. simpl. by rewrite Hk.
Qed.

Lemma spans_loop_spec (srv : service) (planets : list string) (n : nat)
    (d : date) (days : list date) (spans : list Qc) (tr : list request)
    (days' : list date) (spans' : list Qc) :
  Visualize.spans_loop srv planets n d days spans = (tr, Ok (days', spans')) →
  days' = days ++ days_from d n
  ∧ ∃ ns, spans' = spans ++ ns
      ∧ Forall2 (λ d' sp, day_span srv planets d' = Ok sp) (days_from d n) ns.
Proof.
  revert d days spans tr. induction n as [|n IH]; intros d days spans tr H.
  - injection H as _ <- <-. unfold days_from. simpl. rewrite app_nil_r.
    split; [done|]. exists []. by rewrite app_nil_r.
  - cbn [Visualize.spans_loop] in H.
    apply io_bind_Ok_inv in H as (sp & tr1 & tr2 & Hsp & H & ->).
    apply io_bind_Ok_inv in H as (d1 & tr3 & tr4 & Hd & H & ->).
    apply lift_Ok_inv in Hd as [[-> _]%date_add_day_bound ->].
    apply IH in H as (-> & ns & -> & Hall).
    rewrite days_from_S, <-!app_assoc. split; [done|].
    exists (sp :: ns). split; [done|]. constructor; [|done].
    unfold day_span. by rewrite Hsp.
Qed.

(** X12.  On success [compute_spans] returns the days of the window in
    order, one span per day, each the span computed for that day. *)
Theorem compute_spans_lists_every_day (srv : service)
    (start_day end_day : date) (planets : list string)
    (days : list date) (spans : list Qc) :
  (Visualize.compute_spans srv start_day end_day planets).2 = Ok (days, spans) →
  days = window start_day end_day
  ∧ length spans = length days
  ∧ ∀ i d sp, days !! i = Some d → spans !! i = Some sp →
      day_span srv planets d = Ok sp.
Proof.
  unfold Visualize.compute_spans. intros H.
  apply io_bind_snd_Ok_inv in H as (u & _ & H).
  destruct (Visualize.spans_loop _ _ _ _ _ _) as [tr r] eqn:E in H.
  simpl in H. subst r. apply spans_loop_spec in E as (-> & ns & -> & Hall).
  simpl. split; [done|]. split; [symmetry; by eapply Forall2_length|].
  intros i d sp Hd Hsp.
  exact (Forall2_lookup_lr _ _ _ _ _ _ Hall Hd Hsp).
Qed.

Lemma compute_spans_lists_every_day_witness :
  (Visualize.compute_spans example_service 2%Z 4%Z ["Mars"; "Venus"]%string).2
  = Ok ([2; 3; 4]%Z, [Qc_of_Z 2; Qc_of_Z 40; Qc_of_Z 4])
  ∧ [2; 3; 4]%Z = window 2%Z 4%Z.
Proof.
  assert ((Visualize.compute_spans example_service 2%Z 4%Z
             ["Mars"; "Venus"]%string).2
          = Ok ([2; 3; 4]%Z, [Qc_of_Z 2; Qc_of_Z 40; Qc_of_Z 4])) as H by by_eval.
  split; [exact H|].
  exact (proj1 (compute_spans_lists_every_day _ _ _ _ _ _ H)).
Defined.

(** X13.  The plot and the scan agree: a day's plotted span is within the
    threshold exactly when the day lies inside one of the intervals the scan
    returns for the same window and planets. *)
Theorem plotted_hits_are_the_intervals (srv : service)
    (start_day end_day : date) (planets : list string) (threshold : Qc)
    (ivs : list AlignmentHit) (days : list date) (spans : list Qc)
    (i : nat) (d : date) (sp : Qc) :
  (list_planetary_alignments srv start_day end_day planets threshold).2 = Ok ivs →
  (Visualize.compute_spans srv start_day end_day planets).2 = Ok (days, spans) →
  days !! i = Some d → spans !! i = Some sp →
  (sp ≤ threshold ↔ ∃ iv, iv ∈ ivs ∧ inside d iv).
Proof.
  intros Hl Hc Hd Hsp.
  destruct (alignments_facts _ _ _ _ _ _ Hl) as (Hgood & _ & Hcover & _).
  assert (days = window start_day end_day
          ∧ day_span srv planets d = Ok sp) as [-> Hds].
  { unfold Visualize.compute_spans in Hc.
    apply io_bind_snd_Ok_inv in Hc as (u & _ & Hc).
    destruct (Visualize.spans_loop _ _ _ _ _ _) as [tr r] eqn:E in Hc.
    simpl in Hc. subst r. apply spans_loop_spec in E as (-> & ns & -> & Hall).
    split; [done|]. simpl in Hd, Hsp.
    exact (Forall2_lookup_lr _ _ _ _ _ _ Hall Hd Hsp). }
  assert (start_day ≤ d ≤ end_day)%Z as Hr.
  { apply list_elem_of_lookup_2 in Hd. unfold window, days_from in Hd.
    apply list_elem_of_fmap in Hd as (k & -> & Hk). apply elem_of_seq in Hk. lia. }
  split.
  - intros Hthr. by apply (Hcover d sp).
  - intros (iv & Hiv & Hin).
    destruct (Hgood iv Hiv) as [(_ & Hall & _) _].
    destruct (Hall d Hin) as (sp' & (_ & Hsp' & Hthr) & _).
    rewrite Hds in Hsp'. by injection Hsp' as ->.
Qed.

Lemma plotted_hits_are_the_intervals_witness :
  (list_planetary_alignments example_service 1%Z 5%Z
     ["Mars"; "Venus"]%string (Qc_of_Z 10)).2
  = Ok [mkAlignmentHit 1%Z 2%Z ["Mars"; "Venus"]%string (Qc_of_Z 2);
        mkAlignmentHit 4%Z 5%Z ["Mars"; "Venus"]%string (Qc_of_Z 5)]
  ∧ (Visualize.compute_spans example_service 1%Z 5%Z ["Mars"; "Venus"]%string).2
    = Ok ([1; 2; 3; 4; 5]%Z,
          [Qc_of_Z 1; Qc_of_Z 2; Qc_of_Z 40; Qc_of_Z 4; Qc_of_Z 5])
  ∧ (Qc_of_Z 40 ≤ Qc_of_Z 10
     ↔ ∃ iv, iv ∈ [mkAlignmentHit 1%Z 2%Z ["Mars"; "Venus"]%string (Qc_of_Z 2);
                   mkAlignmentHit 4%Z 5%Z ["Mars"; "Venus"]%string (Qc_of_Z 5)]
             ∧ inside 3%Z iv).
Proof.
  assert ((Visualize.compute_spans example_service 1%Z 5%Z
             ["Mars"; "Venus"]%string).2
          = Ok ([1; 2; 3; 4; 5]%Z,
                [Qc_of_Z 1; Qc_of_Z 2; Qc_of_Z 40; Qc_of_Z 4; Qc_of_Z 5]))
    as H by by_eval.
  split; [exact example_scan|]. split; [exact H|].
  exact (plotted_hits_are_the_intervals example_service 1%Z 5%Z
           ["Mars"; "Venus"]%string (Qc_of_Z 10) _ _ _ 2%nat 3%Z (Qc_of_Z 40)
           example_scan H eq_refl eq_refl).
Defined.

End ComputeSpans.

Section SameInputs.
Import BasicScan.

Lemma check_planets_Ok_iff (planets : list string) :
  (check_planets planets = Ok () ↔ ∀ p, p ∈ planets → p ∈ keys PLANET_IDS)
  ∧ (Visualize.check_planets planets = Ok ()
     ↔ ∀ p, p ∈ planets → p ∈ keys PLANET_IDS).
Proof.
  assert ((∀ p, p ∈ planets → p ∈ keys PLANET_IDS)
          ∨ ∃ pre p post, planets = pre ++ p :: post
              ∧ (∀ x, x ∈ pre → x ∈ keys PLANET_IDS) ∧ p ∉ keys PLANET_IDS)
    as [Hall | (pre & p & post & -> & Hpre & Hp)].
  { clear. induction planets as [|x l IH].
    - left. intros p Hp. by apply elem_of_nil in Hp.
    - destruct (decide (x ∈ keys PLANET_IDS)) as [Hx|Hx].
      + destruct IH as [Hall | Hex].
        * left. intros p [->|Hp]%elem_of_cons; auto.
        * right. apply first_unknown.
          destruct Hex as (pre & p & post & -> & _ & Hp).
          exists p. split; [|done]. right. apply elem_of_app. right. left.
      + right. apply first_unknown. exists x. split; [left | done]. }
  - split; (split; [done | intros _]).
    + by apply check_planets_Ok.
    + unfold Visualize.check_planets.
      induction planets as [|p l IH]; [done|]. cbn [for_each].
      assert (contains PLANET_IDS p = true) as ->
        by (apply contains_true, Hall; left).
      apply IH. intros x Hx. apply Hall. by right.
  - destruct (check_planets_unknown pre post p Hpre Hp) as [E1 E2].
    rewrite E1, E2.
    split; (split; [done | intros H; destruct Hp; apply H, elem_of_app; right; left]).
Qed.

Lemma loops_agree (srv : service) (planets : list string) (threshold : Qc)
    (n : nat) (d : date) (hits : list (date * Qc)) (days : list date)
    (spans : list Qc) (tr : list request) :
  (∃ out, scan_loop srv planets threshold n d hits = (tr, Ok out))
  ↔ (∃ r, Visualize.spans_loop srv planets n d days spans = (tr, Ok r)).
Proof.
  revert d hits days spans tr.
  induction n as [|n IH]; intros d hits days spans tr.
  - simpl. split; intros [? [= <- _]]; by eexists.
  - cbn [scan_loop Visualize.spans_loop]. split; intros [r H].
    + apply io_bind_Ok_inv in H as (sp & tr1 & tr2 & Hsp & H & ->).
      apply io_bind_Ok_inv in H as (d1 & tr3 & tr4 & Hd & H & ->).
      destruct (proj1 (IH d1
                  (if bool_decide (sp ≤ threshold) then hits ++ [(d, sp)]
                   else hits) (days ++ [d]) (spans ++ [sp]) tr4))
        as [r' Hr']; [by eexists|].
      exists r'. apply (io_bind_Ok_intro _ _ _ _ sp); [done|].
      by apply (io_bind_Ok_intro _ _ _ _ d1).
    + apply io_bind_Ok_inv in H as (sp & tr1 & tr2 & Hsp & H & ->).
      apply io_bind_Ok_inv in H as (d1 & tr3 & tr4 & Hd & H & ->).
      destruct (proj2 (IH d1
                  (if bool_decide (sp ≤ threshold) then hits ++ [(d, sp)]
                   else hits) (days ++ [d]) (spans ++ [sp]) tr4))
        as [r' Hr']; [by eexists|].
      exists r'. apply (io_bind_Ok_intro _ _ _ _ sp); [done|].
      by apply (io_bind_Ok_intro _ _ _ _ d1).
Qed.

(** X14.  The scan and the plotting helper succeed on the same inputs and
    send the same requests: one returns intervals after a given sequence of
    requests exactly when the other returns its spans after the same
    sequence. *)
Theorem scan_and_plot_succeed_together (srv : service)
    (start_day end_day : date) (planets : list string) (threshold : Qc)
    (tr : list request) :
  (∃ ivs, list_planetary_alignments srv start_day end_day planets threshold
          = (tr, Ok ivs))
  ↔ (∃ r, Visualize.compute_spans srv start_day end_day planets = (tr, Ok r)).
Proof.
  destruct (check_planets_Ok_iff planets) as [Hb Hv]. split.
  - intros [ivs (hits & Hs & _ & Hc)%lpa_inv].
    destruct (proj1 (loops_agree srv planets threshold
                       (Z.to_nat (end_day - start_day + 1)) start_day [] [] [] tr))
      as [r Hr]; [by exists hits|].
    exists r. unfold Visualize.compute_spans.
    rewrite (proj2 Hv (proj1 Hb Hc)).
    by apply (io_bind_Ok_intro _ _ [] tr ()).
  - intros [r H]. unfold Visualize.compute_spans in H.
    apply io_bind_Ok_inv in H as (u & tr1 & tr2 & Hc & H & ->).
    apply lift_Ok_inv in Hc as [Hc ->]. destruct u. simpl.
    destruct (proj2 (loops_agree srv planets threshold
                       (Z.to_nat (end_day - start_day + 1)) start_day [] [] [] tr2))
      as [hits Hs]; [by exists r|].
    pose proof Hs as Hs'. pose proof Hs as Hs''.
    apply scan_loop_spec in Hs' as (new & -> & Hmem & _ & _).
    apply scan_loop_log in Hs'' as [_ Hn].
    assert (∃ ivs, merge_hits planets ([] ++ new) = Ok ivs) as [ivs Hm].
    { simpl. destruct new as [|[d0 s0] rest]; [by eexists|].
      assert (∀ y, y ∈ (d0, s0) :: rest → (y.1 < MAXORDINAL)%Z) as Hlt.
      { intros [d sp] Hy%Hmem. simpl.
        assert (0 < Z.to_nat (end_day - start_day + 1))%nat as Hpos by lia.
        specialize (Hn Hpos). lia. }
      apply merge_loop_Ok.
      - apply (Hlt (d0, s0)). left.
      - intros y Hy. apply Hlt. by right. }
    exists ivs. unfold list_planetary_alignments.
    rewrite (proj2 Hb (proj1 Hv Hc)).
    apply (io_bind_Ok_intro _ _ [] tr2 ()); [done|].
    rewrite <-(app_nil_r tr2).
    apply (io_bind_Ok_intro _ _ tr2 [] ([] ++ new)); [exact Hs|].
    unfold lift. by rewrite Hm.
Qed.

End SameInputs.

(** *** The Julian Day number and the calendar *)
Section JulianDayCalendar.
Import Eclipse2.

Lemma floor_scaled (a : Z) (b : positive) (n : Z) :
  floor (Q2Qc (a # b) * Qc_of_Z n) = ((a * n) `div` Z.pos b)%Z.
Proof.
  unfold floor.
  rewrite (Qfloor_comp _ ((a * n) # b)%Q).
  - reflexivity.
  - rewrite this_mul, this_Q2Qc, this_of_Z.
    unfold Qeq, Qmult, inject_Z. simpl. lia.
Qed.

Lemma jd_integer_part (y m : Z) :
  (1 ≤ y)%Z → (1 ≤ m ≤ 12)%Z →
  let y' := if bool_decide (m ≤ 2)%Z then (y - 1)%Z else y in
  let m' := if bool_decide (m ≤ 2)%Z then (m + 12)%Z else m in
  ((36525 * (y' + 4716)) `div` 100 + (306001 * (m' + 1)) `div` 10000
   + (2 - y' `div` 100 + (y' `div` 100) `div` 4)
   = days_before_year y + days_before_month y m + 1722949)%Z.
Proof.
  intros Hy Hm. cbv zeta. unfold days_before_year, days_before_month, is_leap.
  assert (m = 1 ∨ m = 2 ∨ m = 3 ∨ m = 4 ∨ m = 5 ∨ m = 6 ∨ m = 7 ∨ m = 8
          ∨ m = 9 ∨ m = 10 ∨ m = 11 ∨ m = 12)%Z as Hcases by lia.
  destruct Hcases as [->|[->|[->|[->|[->|[->|[->|[->|[->|[->|[->| ->]]]]]]]]]]];
    cbn [bool_decide decide_rel]; simpl;
    repeat case_bool_decide; simpl;
    Z.div_mod_to_equations; lia.
Qed.

Lemma jd_as_ordinal (dt : datetime) :
  (1 ≤ year dt)%Z → (1 ≤ month dt ≤ 12)%Z →
  jd_from_datetime dt
  = Qc_of_Z (toordinal (year dt) (month dt) (day dt))
    + Q2Qc (17214245 # 10) + day_fraction (hour dt) (minute dt).
Proof.
  intros Hy Hm. pose proof (jd_integer_part _ _ Hy Hm) as HZ. cbv zeta in HZ.
  unfold jd_from_datetime, toordinal. cbv zeta.
  fold (day_fraction (hour dt) (minute dt)).
  destruct (decide (month dt ≤ 2)%Z) as [Hle|Hgt].
  - rewrite !(bool_decide_eq_true_2 (month dt ≤ 2)%Z) in HZ |- * by done.
    cbn [fst snd]. rewrite !int_of_scaled by (by_eval || lia).
    rewrite !floor_scaled.
    apply (f_equal Qc_of_Z) in HZ.
    repeat rewrite Z2Qc_inj_add in HZ. repeat rewrite Z2Qc_inj_add.
    generalize dependent (day_fraction (hour dt) (minute dt)).
    intros F. qc_lra.
  - rewrite !(bool_decide_eq_false_2 (month dt ≤ 2)%Z) in HZ |- * by done.
    cbn [fst snd]. rewrite !int_of_scaled by (by_eval || lia).
    rewrite !floor_scaled.
    apply (f_equal Qc_of_Z) in HZ.
    repeat rewrite Z2Qc_inj_add in HZ. repeat rewrite Z2Qc_inj_add.
    generalize dependent (day_fraction (hour dt) (minute dt)).
    intros F. qc_lra.
Qed.



Lemma days_before_year_step (y : Z) :
  (days_before_year (y + 1)
   = days_before_year y + 365 + if is_leap y then 1 else 0)%Z.
Proof.
  unfold days_before_year, is_leap.
  repeat case_bool_decide; simpl; Z.div_mod_to_equations; lia.
Qed.

Lemma days_before_year_mono (y1 y2 : Z) :
  (y1 ≤ y2)%Z → (days_before_year y1 ≤ days_before_year y2)%Z.
Proof.
  intros H. unfold days_before_year. Z.div_mod_to_equations. lia.
Qed.

Lemma month_cases (m : Z) :
  (1 ≤ m ≤ 12)%Z →
  (m = 1 ∨ m = 2 ∨ m = 3 ∨ m = 4 ∨ m = 5 ∨ m = 6 ∨ m = 7 ∨ m = 8
   ∨ m = 9 ∨ m = 10 ∨ m = 11 ∨ m = 12)%Z.
Proof. lia. Qed.

Lemma days_before_month_bounds (y m : Z) :
  (1 ≤ m ≤ 12)%Z →
  (0 ≤ days_before_month y m
   ∧ days_before_month y m + days_in_month y m
     ≤ 365 + if is_leap y then 1 else 0)%Z.
Proof.
  intros Hm. unfold days_before_month, days_in_month.
  destruct (is_leap y);
    destruct (month_cases m Hm)
      as [->|[->|[->|[->|[->|[->|[->|[->|[->|[->|[->| ->]]]]]]]]]]];
    vm_compute; split; discriminate.
Qed.

Lemma days_before_month_next (y m : Z) :
  (1 ≤ m ≤ 11)%Z →
  (days_before_month y (m + 1) = days_before_month y m + days_in_month y m)%Z.
Proof.
  intros Hm. unfold days_before_month, days_in_month.
  assert (1 ≤ m ≤ 12)%Z as Hm' by lia.
  destruct (is_leap y);
    destruct (month_cases m Hm')
      as [->|[->|[->|[->|[->|[->|[->|[->|[->|[->|[->| ->]]]]]]]]]]];
    try lia; reflexivity.
Qed.

Lemma days_before_month_mono (y m1 m2 : Z) :
  (1 ≤ m1)%Z → (m1 ≤ m2 ≤ 12)%Z →
  (days_before_month y m1 ≤ days_before_month y m2)%Z.
Proof.
  intros H1 H2.
  replace m2 with (m1 + Z.of_nat (Z.to_nat (m2 - m1)))%Z in * by lia.
  generalize dependent (Z.to_nat (m2 - m1)). intros k.
  induction k as [|k IH]; intros Hk.
  - rewrite Z.add_0_r. lia.
  - trans (days_before_month y (m1 + Z.of_nat k)); [apply IH; lia|].
    replace (m1 + Z.of_nat (S k))%Z with (m1 + Z.of_nat k + 1)%Z by lia.
    rewrite days_before_month_next by lia.
    assert (0 ≤ days_in_month y (m1 + Z.of_nat k))%Z; [|lia].
    unfold days_in_month. repeat case_bool_decide; destruct (is_leap y); lia.
Qed.

(** The ordinal follows the calendar order of dates. *)
Lemma toordinal_lt (y1 m1 d1 y2 m2 d2 : Z) :
  (1 ≤ m1 ≤ 12)%Z → (d1 ≤ days_in_month y1 m1)%Z →
  (1 ≤ m2 ≤ 12)%Z → (1 ≤ d2)%Z →
  (y1 < y2 ∨ y1 = y2 ∧ (m1 < m2 ∨ m1 = m2 ∧ d1 < d2))%Z →
  (toordinal y1 m1 d1 < toordinal y2 m2 d2)%Z.
Proof.
  intros Hm1 Hd1 Hm2 Hd2 Hlt. unfold toordinal.
  destruct (days_before_month_bounds y1 m1 Hm1) as [_ Hb1].
  destruct (days_before_month_bounds y2 m2 Hm2) as [Hb2 _].
  destruct Hlt as [Hy | [-> [Hm | [-> Hd]]]].
  - pose proof (days_before_year_step y1) as Hs.
    pose proof (days_before_year_mono (y1 + 1) y2 ltac:(lia)) as Hmono.
    lia.
  - pose proof (days_before_month_mono y2 (m1 + 1) m2 ltac:(lia) ltac:(lia)) as Hmono.
    rewrite days_before_month_next in Hmono by lia. lia.
  - lia.
Qed.

Lemma day_fraction_scaled (h mi : Z) :
  Qc_of_Z 1440 * day_fraction h mi = Qc_of_Z (60 * h + mi).
Proof.
  unfold day_fraction. rewrite Z2Qc_inj_add, Z2Qc_inj_mul.
  replace (Qc_of_Z 1440) with (Qc_of_Z 60 * Qc_of_Z 24) by by_eval.
  field. split; by_eval.
Qed.

(** X16.  The conversion is strictly increasing in wall-clock time: of two
    datetimes that exist in the calendar, the earlier one has the smaller
    Julian Day number. *)
Theorem jd_strictly_increasing (a b : datetime) :
  calendar_datetime a → calendar_datetime b → earlier_datetime a b →
  jd_from_datetime a < jd_from_datetime b.
Proof.
  intros [(Hya & Hma & Hda & Hha & Hmia) Hdima]
         [(Hyb & Hmb & Hdb & Hhb & Hmib) Hdimb] Hlt.
  rewrite !jd_as_ordinal by lia.
  pose proof (day_fraction_scaled (hour a) (minute a)) as Fa.
  pose proof (day_fraction_scaled (hour b) (minute b)) as Fb.
  assert (toordinal (year a) (month a) (day a)
          < toordinal (year b) (month b) (day b)
          ∨ toordinal (year a) (month a) (day a)
            = toordinal (year b) (month b) (day b)
            ∧ 60 * hour a + minute a < 60 * hour b + minute b)%Z as Hcase.
  { unfold earlier_datetime in Hlt.
    destruct Hlt as [H | [Ey [H | [Em [H | [Ed H]]]]]].
    - left. apply toordinal_lt; [lia..|]. by left.
    - left. apply toordinal_lt; [lia..|]. right. split; [done|]. by left.
    - left. apply toordinal_lt; [lia..|]. right. split; [done|]. by right.
    - right. rewrite Ey, Em, Ed. split; [done|]. lia. }
  assert (0 ≤ 60 * hour a + minute a < 1440)%Z as Ha by lia.
  assert (0 ≤ 60 * hour b + minute b < 1440)%Z as Hb by lia.
  destruct Ha as [Ha0 Ha1]. destruct Hb as [Hb0 Hb1].
  apply Z2Qc_inj_le in Ha0, Hb0. apply Z2Qc_inj_lt in Ha1, Hb1.
  destruct Hcase as [Hord | [Hord Hmin]].
  - assert (toordinal (year a) (month a) (day a) + 1
            ≤ toordinal (year b) (month b) (day b))%Z as Hord' by lia.
    apply Z2Qc_inj_le in Hord'. rewrite Z2Qc_inj_add in Hord'.
    generalize dependent (Qc_of_Z (toordinal (year a) (month a) (day a))).
    generalize dependent (Qc_of_Z (toordinal (year b) (month b) (day b))).
    generalize dependent (Qc_of_Z (60 * hour a + minute a)).
    generalize dependent (Qc_of_Z (60 * hour b + minute b)).
    generalize dependent (day_fraction (hour a) (minute a)).
    generalize dependent (day_fraction (hour b) (minute b)).
    intros. qc_lra.
  - rewrite Hord. apply Z2Qc_inj_lt in Hmin.
    generalize dependent (Qc_of_Z (toordinal (year b) (month b) (day b))).
    generalize dependent (Qc_of_Z (60 * hour a + minute a)).
    generalize dependent (Qc_of_Z (60 * hour b + minute b)).
    generalize dependent (day_fraction (hour a) (minute a)).
    generalize dependent (day_fraction (hour b) (minute b)).
    intros. qc_lra.
Qed.

Lemma jd_strictly_increasing_witness :
  calendar_datetime (mkDatetime 2024 2 29 23 59)
  ∧ calendar_datetime (mkDatetime 2024 3 1 0 0)
  ∧ earlier_datetime (mkDatetime 2024 2 29 23 59) (mkDatetime 2024 3 1 0 0)
  ∧ jd_from_datetime (mkDatetime 2024 2 29 23 59)
    < jd_from_datetime (mkDatetime 2024 3 1 0 0).
Proof.
  assert (calendar_datetime (mkDatetime 2024 2 29 23 59)) as H1
    by (unfold calendar_datetime, valid_datetime; vm_compute; intuition discriminate).
  assert (calendar_datetime (mkDatetime 2024 3 1 0 0)) as H2
    by (unfold calendar_datetime, valid_datetime; vm_compute; intuition discriminate).
  assert (earlier_datetime (mkDatetime 2024 2 29 23 59) (mkDatetime 2024 3 1 0 0))
    as H3 by (unfold earlier_datetime; simpl; lia).
  split; [exact H1|]. split; [exact H2|]. split; [exact H3|].
  exact (jd_strictly_increasing _ _ H1 H2 H3).
Defined.

End JulianDayCalendar.

(** *** Candidate epochs and mean longitude *)
Section CandidateEpochs.
Import Eclipse2.
Context (t0 lam_ref lam_seed n_ref n_seed : Qc) (start_dt end_dt : datetime).











End CandidateEpochs.

Section CandidateTheorems.
Import Eclipse2.



End CandidateTheorems.

Section CandidateWitnesses.
Import Eclipse2.



End CandidateWitnesses.

(** *** Picking the longitude out of a data line *)
Section ParseLongitude.
Import BasicScan.





End ParseLongitude.

(** *** Raising the threshold *)
Section Threshold.
Import BasicScan.

Lemma separated_intervals_disjoint (ivs : list AlignmentHit)
    (a b : AlignmentHit) (d : date) :
  StronglySorted separated ivs →
  a ∈ ivs → b ∈ ivs → inside d a → inside (d + 1)%Z b →
  (start a ≤ end_ a)%Z → (start b ≤ end_ b)%Z → a = b.
Proof.
  intros Hsep [i Hi]%list_elem_of_lookup [j Hj]%list_elem_of_lookup Ha Hb.
  unfold inside in *. intros Hla Hlb.
  destruct (lt_eq_lt_dec i j) as [[Hlt | ->] | Hgt].
  - pose proof (StronglySorted_lookup separated ivs i j a b Hsep Hlt Hi Hj) as S.
    unfold separated in S. lia.
  - rewrite Hi in Hj. by injection Hj.
  - pose proof (StronglySorted_lookup separated ivs j i b a Hsep Hgt Hj Hi) as S.
    unfold separated in S. lia.
Qed.

Lemma scan_success_threshold_free (srv : service) (start_day end_day : date)
    (planets : list string) (t1 t2 : Qc) (tr : list request)
    (ivs1 : list AlignmentHit) :
  list_planetary_alignments srv start_day end_day planets t1 = (tr, Ok ivs1) →
  ∃ ivs2,
    list_planetary_alignments srv start_day end_day planets t2 = (tr, Ok ivs2).
Proof.
  intros (hits & Hs & _ & Hc)%lpa_inv.
  destruct (proj1 (loops_agree srv planets t1
                     (Z.to_nat (end_day - start_day + 1)) start_day [] [] [] tr))
    as [r Hr]; [by exists hits|].
  destruct (proj2 (loops_agree srv planets t2
                     (Z.to_nat (end_day - start_day + 1)) start_day [] [] [] tr))
    as [hits2 Hs2]; [by exists r|].
  pose proof Hs2 as Hs'. pose proof Hs2 as Hs''.
  apply scan_loop_spec in Hs' as (new & -> & Hmem & _ & _).
  apply scan_loop_log in Hs'' as [_ Hn].
  assert (∃ ivs, merge_hits planets ([] ++ new) = Ok ivs) as [ivs Hm].
  { simpl. destruct new as [|[d0 s0] rest]; [by eexists|].
    assert (∀ y, y ∈ (d0, s0) :: rest → (y.1 < MAXORDINAL)%Z) as Hlt.
    { intros [d sp] Hy%Hmem. simpl.
      assert (0 < Z.to_nat (end_day - start_day + 1))%nat as Hpos by lia.
      specialize (Hn Hpos). lia. }
    apply merge_loop_Ok.
    - apply (Hlt (d0, s0)). left.
    - intros y Hy. apply Hlt. by right. }
  exists ivs. unfold list_planetary_alignments. rewrite Hc.
  apply (io_bind_Ok_intro _ _ [] tr ()); [done|].
  rewrite <-(app_nil_r tr).
  apply (io_bind_Ok_intro _ _ tr [] ([] ++ new)); [exact Hs2|].
  unfold lift. by rewrite Hm.
Qed.

(** X21.  Raising the threshold never loses an alignment: when the scan
    returns for one threshold it returns, after the same requests, for any
    higher threshold, and each interval found with the lower threshold lies
    inside one interval found with the higher threshold, whose maximal span
    is at least as large. *)
Theorem higher_threshold_keeps_alignments (srv : service)
    (start_day end_day : date) (planets : list string) (t1 t2 : Qc)
    (tr : list request) (ivs1 : list AlignmentHit) :
  t1 ≤ t2 →
  list_planetary_alignments srv start_day end_day planets t1 = (tr, Ok ivs1) →
  ∃ ivs2,
    list_planetary_alignments srv start_day end_day planets t2 = (tr, Ok ivs2)
    ∧ ∀ iv, iv ∈ ivs1 →
        ∃ iv', iv' ∈ ivs2
          ∧ (start iv' ≤ start iv)%Z ∧ (end_ iv ≤ end_ iv')%Z
          ∧ max_span_deg iv ≤ max_span_deg iv'.
Proof.
  intros Ht H1.
  destruct (scan_success_threshold_free _ _ _ _ _ t2 _ _ H1) as [ivs2 H2].
  exists ivs2. split; [done|].
  assert ((list_planetary_alignments srv start_day end_day planets t1).2
          = Ok ivs1) as H1' by by rewrite H1.
  assert ((list_planetary_alignments srv start_day end_day planets t2).2
          = Ok ivs2) as H2' by by rewrite H2.
  destruct (alignments_facts _ _ _ _ _ _ H1') as (Hgood1 & _ & _ & _).
  destruct (alignments_facts _ _ _ _ _ _ H2') as (Hgood2 & Hsep2 & Hcover2 & _).
  assert (∀ iv, iv ∈ ivs2 → (start iv ≤ end_ iv)%Z) as Hle2.
  { intros iv Hiv. by destruct (Hgood2 iv Hiv) as [(? & _) _]. }
  intros iv Hiv.
  destruct (Hgood1 iv Hiv) as [(Hle & Hall & d0 & Hd0 & Hhit0) _].
  assert (∀ d, (start iv ≤ d ≤ end_ iv)%Z →
            ∃ iv', iv' ∈ ivs2 ∧ inside d iv') as Hin.
  { intros d Hd. destruct (Hall d Hd) as (sp & (Hr & Hsp & Hthr) & _).
    apply (Hcover2 d sp). split_and!; [lia | lia | done | by trans t1]. }
  destruct (Hin (start iv)) as (iv' & Hiv' & Hs'); [lia|].
  assert (∀ n : nat, (start iv + Z.of_nat n ≤ end_ iv)%Z →
            inside (start iv + Z.of_nat n)%Z iv') as Hrun.
  { induction n as [|n IH]; intros Hn.
    - by rewrite Z.add_0_r.
    - destruct (Hin (start iv + Z.of_nat (S n))%Z) as (iv'' & Hiv'' & Hs'');
        [lia|].
      replace (start iv + Z.of_nat (S n))%Z
        with (start iv + Z.of_nat n + 1)%Z in * by lia.
      assert (inside (start iv + Z.of_nat n)%Z iv') as Hprev by (apply IH; lia).
      by rewrite (separated_intervals_disjoint ivs2 iv' iv''
                    (start iv + Z.of_nat n)%Z Hsep2 Hiv' Hiv'' Hprev Hs''
                    (Hle2 _ Hiv') (Hle2 _ Hiv'')). }
  assert (∀ d, (start iv ≤ d ≤ end_ iv)%Z → inside d iv') as Hall'.
  { intros d Hd. specialize (Hrun (Z.to_nat (d - start iv)) ltac:(lia)).
    by replace (start iv + Z.of_nat (Z.to_nat (d - start iv)))%Z
      with d in Hrun by lia. }
  exists iv'. split; [done|].
  pose proof (Hall' (end_ iv) ltac:(lia)) as He.
  pose proof (Hall' d0 Hd0) as Hd0'.
  unfold inside in *. split_and!; [lia | lia |].
  destruct Hhit0 as (_ & Hsp0 & _).
  destruct (Hgood2 iv' Hiv') as [(_ & Hall2 & _) _].
  destruct (Hall2 d0 Hd0') as (sp & (_ & Hsp & _) & Hmax).
  rewrite Hsp0 in Hsp. by injection Hsp as <-.
Qed.

Lemma higher_threshold_keeps_alignments_witness :
  Qc_of_Z 10 ≤ Qc_of_Z 40
  ∧ list_planetary_alignments example_service 1%Z 5%Z ["Mars"; "Venus"]%string
      (Qc_of_Z 10)
    = (window 1%Z 5%Z ≫= day_requests ["Mars"; "Venus"]%string,
       Ok [mkAlignmentHit 1%Z 2%Z ["Mars"; "Venus"]%string (Qc_of_Z 2);
           mkAlignmentHit 4%Z 5%Z ["Mars"; "Venus"]%string (Qc_of_Z 5)])
  ∧ ∃ ivs2,
      list_planetary_alignments example_service 1%Z 5%Z ["Mars"; "Venus"]%string
        (Qc_of_Z 40)
      = (window 1%Z 5%Z ≫= day_requests ["Mars"; "Venus"]%string, Ok ivs2)
      ∧ ∀ iv, iv ∈ [mkAlignmentHit 1%Z 2%Z ["Mars"; "Venus"]%string (Qc_of_Z 2);
                    mkAlignmentHit 4%Z 5%Z ["Mars"; "Venus"]%string (Qc_of_Z 5)] →
          ∃ iv', iv' ∈ ivs2
            ∧ (start iv' ≤ start iv)%Z ∧ (end_ iv ≤ end_ iv')%Z
            ∧ max_span_deg iv ≤ max_span_deg iv'.
Proof.
  assert (Qc_of_Z 10 ≤ Qc_of_Z 40) as Ht by by_eval.
  assert (list_planetary_alignments example_service 1%Z 5%Z
            ["Mars"; "Venus"]%string (Qc_of_Z 10)
          = (window 1%Z 5%Z ≫= day_requests ["Mars"; "Venus"]%string,
             Ok [mkAlignmentHit 1%Z 2%Z ["Mars"; "Venus"]%string (Qc_of_Z 2);
                 mkAlignmentHit 4%Z 5%Z ["Mars"; "Venus"]%string (Qc_of_Z 5)]))
    as H by by_eval.
  split; [exact Ht|]. split; [exact H|].
  exact (higher_threshold_keeps_alignments _ _ _ _ _ _ _ _ Ht H).
Defined.

End Threshold.

(** *** The mean motion outside its domain *)
Section MeanMotion.







End MeanMotion.
